(** * The TuxCare vulnerability list: record addressing and CVE resolution

    A shallow embedding of [cve_converter.py] (the OS-name normaliser and the
    idempotent JSON writer) and of [get-cve.py] (the multi-source resolver and
    the record loader), with the properties their specification states.

    Conventions of the embedding.
    - A Python [str] is a [string]; its characters are the code points below
      128.  [upper], [lower] and [split] act on those as Python does; a byte
      above 127 is carried along unchanged and is neither a letter nor white
      space.
    - A Python exception that leaves a function is a value [Raised e].
    - The operating system is not part of the program.  The resolver only
      reads it, so it sees the file system through a record of functions, and
      every call to one of them is written to a log.  The writer changes it,
      so it threads a store of files keyed by path text. *)

From Stdlib Require Import Ascii String.
From stdpp Require Import gmap strings list.

Local Open Scope string_scope.

(** ** Exceptions *)

Inductive exn : Type :=
  | IndexError
  | KeyError
  | TypeError
  | AttributeError
  | OSError
  | UnicodeDecodeError.

Inductive outcome (A : Type) : Type :=
  | Val (a : A)
  | Raised (e : exn).
Arguments Val {A} a.
Arguments Raised {A} e.

#[global] Instance outcome_ret : MRet outcome := λ A a, Val a.
#[global] Instance outcome_bind : MBind outcome := λ A B f m,
  match m with
  | Val a => f a
  | Raised e => Raised e
  end.

Definition is_val {A} (o : outcome A) : bool :=
  match o with Val _ => true | Raised _ => false end.

(** ** Strings as Python has them *)

Module Str.

Definition code (c : ascii) : nat := nat_of_ascii c.

(** [str.isspace] on one character: TAB..CR, FS..US and the blank. *)
Definition is_space (c : ascii) : bool :=
  let n := code c in
  (((9 <=? n) && (n <=? 13)) || ((28 <=? n) && (n <=? 32)))%nat.

Definition is_digit (c : ascii) : bool :=
  let n := code c in ((48 <=? n) && (n <=? 57))%nat.

Definition upper_char (c : ascii) : ascii :=
  let n := code c in
  if ((97 <=? n) && (n <=? 122))%nat then ascii_of_nat (n - 32) else c.

Definition lower_char (c : ascii) : ascii :=
  let n := code c in
  if ((65 <=? n) && (n <=? 90))%nat then ascii_of_nat (n + 32) else c.

Fixpoint map (f : ascii → ascii) (s : string) : string :=
  match s with
  | EmptyString => EmptyString
  | String c s' => String (f c) (map f s')
  end.

(** [s.upper()] and [s.lower()]. *)
Definition upper : string → string := map upper_char.
Definition lower : string → string := map lower_char.

Definition snoc (s : string) (c : ascii) : string := s +:+ String c "".

(** [s.split()]: the maximal runs of characters that are not white space.
    [tok] is the run being read. *)
Fixpoint split_ws (tok s : string) : list string :=
  match s with
  | EmptyString => if decide (tok = "") then [] else [tok]
  | String c s' =>
      if is_space c
      then (if decide (tok = "") then split_ws "" s' else tok :: split_ws "" s')
      else split_ws (snoc tok c) s'
  end.
Definition split (s : string) : list string := split_ws "" s.

(** [s.split(sep)] for a separator of one character. *)
Fixpoint split_at (sep : ascii) (tok s : string) : list string :=
  match s with
  | EmptyString => [tok]
  | String c s' =>
      if decide (c = sep) then tok :: split_at sep "" s'
      else split_at sep (snoc tok c) s'
  end.
Definition split_on (sep : ascii) (s : string) : list string := split_at sep "" s.

(** [s.startswith(p)]. *)
Fixpoint startswith (p s : string) : bool :=
  match p, s with
  | EmptyString, _ => true
  | String a p', String b s' => bool_decide (a = b) && startswith p' s'
  | String _ _, EmptyString => false
  end.

(** [p in s] for two strings. *)
Fixpoint contains (p s : string) : bool :=
  startswith p s ||
  match s with
  | EmptyString => false
  | String _ s' => contains p s'
  end.

(** [s.endswith(p)]. *)
Definition endswith (p s : string) : bool :=
  let n := String.length s in
  let k := String.length p in
  (k <=? n)%nat && bool_decide (String.substring (n - k) k s = p).

(** [s[:n]]. *)
Definition take (n : nat) (s : string) : string := String.substring 0 n s.

Definition all (f : ascii → bool) (s : string) : bool :=
  forallb f (list_ascii_of_string s).

End Str.

(** [xs[i]] on a list. *)
Definition getitem {A} (xs : list A) (i : nat) : outcome A :=
  match xs !! i with
  | Some x => Val x
  | None => Raised IndexError
  end.

(** ** [cve_converter.py]: the identifier normaliser *)

Definition parse_os_name (os_name : string) : outcome (string * string * string) :=
  let parts := Str.split os_name in
  centos ← (if (2 <=? List.length parts)%nat then
              p0 ← getitem parts 0;
              if decide (p0 = "CentOS") then
                p1 ← getitem parts 1; mret (bool_decide (p1 = "Stream"))
              else mret false
            else mret false);
  if (centos : bool) then
    distro ← getitem parts 0;
    p1 ← getitem parts 1;
    p2 ← getitem parts 2;
    let version := p1 +:+ p2 in
    variant ← (if (3 <? List.length parts)%nat then getitem parts 3 else mret "");
    mret (distro, version, variant)
  else
    oracle ← (if (2 <=? List.length parts)%nat then
                p0 ← getitem parts 0;
                if decide (p0 = "Oracle") then
                  p1 ← getitem parts 1; mret (bool_decide (p1 = "Linux"))
                else mret false
              else mret false);
    if (oracle : bool) then
      let distro := "OracleLinux" in
      version ← (if (2 <? List.length parts)%nat then getitem parts 2 else mret "");
      variant ← (if (3 <? List.length parts)%nat then getitem parts 3 else mret "");
      mret (distro, version, variant)
    else
      distro ← getitem parts 0;
      version ← (if (1 <? List.length parts)%nat then getitem parts 1 else mret "");
      variant ← (if (2 <? List.length parts)%nat then getitem parts 2 else mret "");
      mret (distro, version, variant).

(** ** JSON documents as [json.load] returns them

    A [dict] is the list of its items in order, with distinct keys; numbers
    are never inspected by the program, so an integer stands for any of them.
    [None] is [JNull]. *)

#[warnings="-register-all"]
Inductive json : Type :=
  | JNull
  | JBool (b : bool)
  | JNum (n : Z)
  | JStr (s : string)
  | JArr (xs : list json)
  | JObj (items : list (string * json)).

Definition dict_get {V} (k : string) (items : list (string * V)) : option V :=
  snd <$> List.find (λ kv, bool_decide (kv.1 = k)) items.

Fixpoint dict_set {V} (k : string) (v : V) (items : list (string * V)) : list (string * V) :=
  match items with
  | [] => [(k, v)]
  | (k', v') :: rest =>
      if decide (k' = k) then (k, v) :: rest else (k', v') :: dict_set k v rest
  end.

(** [v == s] for a string [s]. *)
Definition eq_str (v : json) (s : string) : bool :=
  match v with
  | JStr t => bool_decide (t = s)
  | _ => false
  end.

(** [k in v] for a string [k]. *)
Definition py_in (k : string) (v : json) : outcome bool :=
  match v with
  | JObj items => Val (bool_decide (is_Some (dict_get k items)))
  | JArr xs => Val (existsb (λ x, eq_str x k) xs)
  | JStr s => Val (Str.contains k s)
  | JNull | JBool _ | JNum _ => Raised TypeError
  end.

(** [v[k]] for a string [k]. *)
Definition py_subscript (v : json) (k : string) : outcome json :=
  match v with
  | JObj items =>
      match dict_get k items with
      | Some x => Val x
      | None => Raised KeyError
      end
  | _ => Raised TypeError
  end.

(** The values a [for x in v] loop visits. *)
Definition py_iter (v : json) : outcome (list json) :=
  match v with
  | JArr xs => Val xs
  | JObj items => Val (JStr <$> items.*1)
  | JStr s => Val ((λ c, JStr (String c "")) <$> list_ascii_of_string s)
  | JNull | JBool _ | JNum _ => Raised TypeError
  end.

(** [v.get(k)]. *)
Definition py_get (v : json) (k : string) : outcome json :=
  match v with
  | JObj items => Val (default JNull (dict_get k items))
  | _ => Raised AttributeError
  end.

(** [v.items()]. *)
Definition py_items (v : json) : outcome (list (string * json)) :=
  match v with
  | JObj items => Val items
  | _ => Raised AttributeError
  end.

(** [v[k] = x] for a string [k]. *)
Definition py_setitem (v : json) (k : string) (x : json) : outcome json :=
  match v with
  | JObj items => Val (JObj (dict_set k x items))
  | _ => Raised TypeError
  end.

(** ** Paths ([posixpath]) *)

Module Path.

Definition sep : ascii := "/"%char.

Definition join2 (path b : string) : string :=
  if Str.startswith "/" b then b
  else if bool_decide (path = "") || Str.endswith "/" path then path +:+ b
  else path +:+ "/" +:+ b.

(** [os.path.join(a, *p)]. *)
Definition join (a : string) (p : list string) : string := foldl join2 a p.

Definition has_sep (s : string) : bool := Str.contains "/" s.

(** [p[p.rfind('/') + 1:]]. *)
Fixpoint basename (p : string) : string :=
  match p with
  | EmptyString => EmptyString
  | String c p' =>
      if has_sep p' then basename p'
      else if decide (c = sep) then p' else p
  end.

(** [p[:p.rfind('/') + 1]]. *)
Fixpoint head (p : string) : string :=
  match p with
  | EmptyString => EmptyString
  | String c p' =>
      if has_sep p' then String c (head p')
      else if decide (c = sep) then "/" else ""
  end.

(** [s.rstrip('/')]. *)
Fixpoint rstrip (s : string) : string :=
  match s with
  | EmptyString => EmptyString
  | String c s' =>
      let r := rstrip s' in
      if bool_decide (r = "") && bool_decide (c = sep) then "" else String c r
  end.

(** [os.path.dirname(p)]. *)
Definition dirname (p : string) : string :=
  let h := head p in
  if negb (bool_decide (h = "")) && negb (Str.all (λ c, bool_decide (c = sep)) h)
  then rstrip h else h.

End Path.

(** ** The file system as the resolver sees it *)

(** What [open(path)] followed by [json.load] does: it gives a document, or
    raises one of the two exceptions the program catches ([IOError],
    [JSONDecodeError]), or raises another one. *)
Inductive loaded : Type :=
  | Loaded (data : json)
  | LoadFails
  | LoadRaises (e : exn).

Record FileSystem : Type := {
  fs_exists : string → bool;                  (* os.path.exists *)
  fs_isdir : string → bool;                   (* os.path.isdir *)
  fs_listdir : string → outcome (list string);  (* os.listdir *)
  fs_glob : string → list string;             (* glob.glob(pattern, recursive=True) *)
  fs_walk : string → list (string * list string * list string);  (* os.walk *)
  fs_load : string → loaded;                  (* open, json.load *)
}.

(** What a run does to the outside: the calls it makes, with their argument,
    and the lines it prints.  The text of a caught exception, which the
    system words, is left out of the printed line. *)
Inductive event : Type :=
  | Exists (path : string)
  | IsDir (path : string)
  | ListDir (path : string)
  | Glob (pattern : string)
  | Walk (top : string)
  | Open (path : string)
  | Print (line : string).

#[global] Instance exn_eq_dec : EqDecision exn.
Proof. solve_decision. Defined.
#[global] Instance event_eq_dec : EqDecision event.
Proof. solve_decision. Defined.

Definition is_print (e : event) : bool :=
  match e with Print _ => true | _ => false end.

(** The path or pattern a call names. *)
Definition touched (e : event) : option string :=
  match e with
  | Exists p | IsDir p | ListDir p | Glob p | Walk p | Open p => Some p
  | Print _ => None
  end.

Record io (A : Type) : Type := Io { log : list event; result : outcome A }.
Arguments Io {A} log result.
Arguments log {A} _.
Arguments result {A} _.

#[global] Instance io_ret : MRet io := λ A a, Io [] (Val a).
#[global] Instance io_bind : MBind io := λ A B f m,
  match result m with
  | Val a => let r := f a in Io (log m ++ log r) (result r)
  | Raised e => Io (log m) (Raised e)
  end.

Definition tell (e : event) : io unit := Io [e] (Val ()).
Definition print (line : string) : io unit := tell (Print line).
Definition raise {A} (e : exn) : io A := Io [] (Raised e).
Definition lift {A} (o : outcome A) : io A := Io [] o.

(** A block of statements that may [return] a value: [Some v] is the value
    returned, [None] means control reached the end of the block.  [a ;;; b]
    runs [b] only when [a] did not return. *)
Definition or_next {A} (a b : io (option A)) : io (option A) :=
  r ← a;
  match r with
  | Some v => mret (Some v)
  | None => b
  end.
Notation "a ;;; b" := (or_next a b) (at level 100, b at level 200, right associativity).
Arguments or_next : simpl never.

(** [for x in xs: body(x)], where the body may return. *)
Fixpoint for_each {X A} (xs : list X) (body : X → io (option A)) : io (option A) :=
  match xs with
  | [] => mret None
  | x :: rest => body x ;;; for_each rest body
  end.

(** ** [get-cve.py]: the source resolver and the record loader *)

Section Resolver.

Variable fs : FileSystem.
(** [os.path.dirname(os.path.abspath(__file__))] *)
Variable repo_root : string.

Definition path_exists (p : string) : io bool :=
  tell (Exists p);; mret (fs_exists fs p).
Definition isdir (p : string) : io bool :=
  tell (IsDir p);; mret (fs_isdir fs p).
Definition listdir (p : string) : io (list string) :=
  tell (ListDir p);; lift (fs_listdir fs p).
Definition glob (pattern : string) : io (list string) :=
  tell (Glob pattern);; mret (fs_glob fs pattern).
Definition walk (top : string) : io (list (string * list string * list string)) :=
  tell (Walk top);; mret (fs_walk fs top).

(** [with open(json_file) as f: data = json.load(f); body(data)] inside
    [try ... except (json.JSONDecodeError, IOError): print(warning)]. *)
Definition with_json {A} (json_file : string) (body : json → io (option A))
    : io (option A) :=
  tell (Open json_file);;
  match fs_load fs json_file with
  | Loaded data => body data
  | LoadFails => print ("Warning: Could not parse " +:+ json_file +:+ ": ");; mret None
  | LoadRaises e => raise e
  end.

(** The blocks for [nvd], [ubuntu] and [debian], which differ in the name
    of the directory only. *)
Definition probe_direct (name year cve_id : string) : io (option string) :=
  let path := Path.join repo_root [name; year; cve_id +:+ ".json"] in
  found ← path_exists path;
  if (found : bool) then mret (Some path) else mret None.

(** [for identifier in ...: if identifier.get("Type") == "CVE" and
    identifier.get("Value") == cve_id: return json_file] *)
Fixpoint identifiers_match (cve_id : string) (identifiers : list json) : outcome bool :=
  match identifiers with
  | [] => Val false
  | identifier :: rest =>
      ty ← py_get identifier "Type";
      hit ← (if eq_str ty "CVE" then
               v ← py_get identifier "Value"; mret (eq_str v cve_id)
             else mret false);
      if (hit : bool) then Val true else identifiers_match cve_id rest
  end.

(** Whether the body of the [with] of the GHSA block returns, for the
    document [data]. *)
Definition advisory_matches (cve_id : string) (data : json) : outcome bool :=
  has_advisory ← py_in "Advisory" data;
  guard ← (if (has_advisory : bool) then
             advisory ← py_subscript data "Advisory";
             py_in "Identifiers" advisory
           else mret false);
  if (guard : bool) then
    advisory ← py_subscript data "Advisory";
    identifiers ← py_subscript advisory "Identifiers";
    entries ← py_iter identifiers;
    identifiers_match cve_id entries
  else mret false.

Definition probe_ghsa (cve_id : string) : io (option string) :=
  let ghsa_base := Path.join repo_root ["ghsa"] in
  present ← path_exists ghsa_base;
  if (present : bool) then
    ecosystems ← listdir ghsa_base;
    for_each ecosystems (λ ecosystem_dir,
      let ecosystem_path := Path.join ghsa_base [ecosystem_dir] in
      is_dir ← isdir ecosystem_path;
      if (is_dir : bool) then
        files ← glob (Path.join ecosystem_path ["**/*.json"]);
        for_each files (λ json_file,
          with_json json_file (λ data,
            hit ← lift (advisory_matches cve_id data);
            if (hit : bool) then mret (Some json_file) else mret None))
      else mret None)
  else mret None.

(** [for version, cves in data["secfixes"].items(): if cve_id in cves:
    return json_file] *)
Fixpoint secfixes_match (cve_id : string) (fixes : list (string * json)) : outcome bool :=
  match fixes with
  | [] => Val false
  | (version, cves) :: rest =>
      hit ← py_in cve_id cves;
      if (hit : bool) then Val true else secfixes_match cve_id rest
  end.

(** Whether the body of the [with] of the last block returns. *)
Definition secfixes_matches (cve_id : string) (data : json) : outcome bool :=
  has_secfixes ← py_in "secfixes" data;
  if (has_secfixes : bool) then
    secfixes ← py_subscript data "secfixes";
    fixes ← py_items secfixes;
    secfixes_match cve_id fixes
  else mret false.

(** The body of [for dir_name in ...] of the last block. *)
Definition probe_versioned (cve_id dir_name : string) : io (option string) :=
  let source_base := Path.join repo_root [dir_name] in
  present ← path_exists source_base;
  if (present : bool) then
    tree ← walk source_base;
    for_each tree (λ '(root, dirs, files),
      for_each files (λ file,
        if Str.endswith ".json" file then
          let json_file := Path.join root [file] in
          with_json json_file (λ data,
            hit ← lift (secfixes_matches cve_id data);
            if (hit : bool) then mret (Some json_file) else mret None)
        else mret None))
  else mret None.

Definition versioned_sources : list string :=
  ["alpine"; "amazon"; "oracle"; "photon"; "redhat"; "suse"].

(** [source is None or source.lower() == name] *)
Definition source_is (source : option string) (name : string) : bool :=
  match source with
  | None => true
  | Some s => bool_decide (Str.lower s = name)
  end.

(** [source is None or source.lower() in names] *)
Definition source_in (source : option string) (names : list string) : bool :=
  match source with
  | None => true
  | Some s => bool_decide (Str.lower s ∈ names)
  end.

Definition invalid_format : string :=
  "Error: Invalid CVE ID format. Expected format: CVE-YYYY-NNNN".

Definition find_cve_file (cve_id : string) (source : option string) : io (option string) :=
  let cve_id := Str.upper cve_id in
  if negb (Str.startswith "CVE-" cve_id) then
    print invalid_format;; mret None
  else
    match getitem (Str.split_on "-" cve_id) 1 with
    | Raised IndexError =>
        print ("Error: Invalid CVE ID format: " +:+ cve_id
               +:+ ". Expected format: CVE-YYYY-NNNN");;
        mret None
    | Raised e => raise e
    | Val year =>
        (if source_is source "nvd" then probe_direct "nvd" year cve_id else mret None) ;;;
        (if source_is source "ubuntu" then probe_direct "ubuntu" year cve_id else mret None) ;;;
        (if source_is source "debian" then probe_direct "debian" year cve_id else mret None) ;;;
        (if source_is source "ghsa" then probe_ghsa cve_id else mret None) ;;;
        (if source_in source versioned_sources then
           let source_dir :=
             match source with
             | Some s => if decide (s = "") then None else Some (Str.lower s)
             | None => None
             end in
           let dir_names :=
             match source_dir with
             | Some d => if decide (d = "") then versioned_sources else [d]
             | None => versioned_sources
             end in
           for_each dir_names (probe_versioned cve_id)
         else mret None) ;;;
        mret None
    end.

Definition unknown_source : string := "Unknown Source".

(** The chain of [if "nvd" in file_path: ... elif ...] of [get_cve_info]. *)
Definition source_label (file_path : string) : string :=
  if Str.contains "nvd" file_path then "NVD (National Vulnerability Database)"
  else if Str.contains "ghsa" file_path then "GHSA (GitHub Security Advisory)"
  else if Str.contains "alpine" file_path then
    "Alpine Linux ("
      +:+ Path.basename (Path.dirname (Path.dirname file_path))
      +:+ "/" +:+ Path.basename (Path.dirname file_path) +:+ ")"
  else if Str.contains "debian" file_path then "Debian Linux"
  else if Str.contains "ubuntu" file_path then "Ubuntu Linux"
  else if Str.contains "amazon" file_path then "Amazon Linux"
  else if Str.contains "oracle" file_path then "Oracle Linux"
  else if Str.contains "photon" file_path then "VMware Photon OS"
  else if Str.contains "redhat" file_path then "Red Hat Linux"
  else if Str.contains "suse" file_path then "SUSE Linux"
  else unknown_source.

(** A string is false when it is empty, and so is [None]. *)
Definition truthy (s : option string) : option string :=
  match s with
  | Some t => if decide (t = "") then None else Some t
  | None => None
  end.

Definition get_cve_info (cve_id : string) (source : option string) : io (option json) :=
  file_path ← find_cve_file cve_id source;
  match truthy file_path with
  | None =>
      print ("Error: Could not find data for " +:+ cve_id
             +:+ match truthy source with Some s => " in " +:+ s | None => "" end);;
      mret None
  | Some file_path =>
      tell (Open file_path);;
      match fs_load fs file_path with
      | Loaded data =>
          data' ← lift (py_setitem data "_source" (JStr (source_label file_path)));
          mret (Some data')
      | LoadFails =>
          print ("Error: Could not read or parse " +:+ file_path +:+ ": ");;
          mret None
      | LoadRaises e => raise e
      end
  end.

End Resolver.

(** ** [cve_converter.py]: the idempotent writer *)

(** A field of a row of [csv.DictReader]: a string, or [None] where the row
    was shorter than the header. *)
Inductive field : Type :=
  | Text (s : string)
  | Absent.

(** A row: the list of its items, in the order of the header. *)
Definition entry : Type := list (string * field).

(** [entry[key]] *)
Definition entry_get (e : entry) (key : string) : outcome field :=
  match dict_get key e with
  | Some v => Val v
  | None => Raised KeyError
  end.

(** A regular file of the store: text that [f.read()] returns, or bytes that
    it cannot decode. *)
Inductive file : Type :=
  | Readable (content : string)
  | Unreadable.

#[global] Instance file_eq_dec : EqDecision file.
Proof. solve_decision. Defined.

(** The state of one call of [create_json_files].  [disk] maps the text of a
    path to the regular file it names; directories are not files, and
    [os.makedirs(dir_path, exist_ok=True)] leaves [disk] as it is.  [written]
    lists the paths handed to [f.write], latest first. *)
Record batch : Type := Batch {
  disk : gmap string file;
  created_files : gset string;
  file_count : nat;
  unchanged_count : nat;
  written : list string;
}.

Section Writer.

(** [json.dumps(entry, indent=2)] *)
Variable dumps : entry → string.

(** From the top of the loop body to [file_path = ...]: the fields, the
    triplet and the two paths. *)
Definition entry_paths (base_dir : string) (e : entry) : outcome (string * string) :=
  cve ← entry_get e "CVE";
  os_name ← entry_get e "OS name";
  last_updated ← entry_get e "Last updated";
  year ← match last_updated with
         | Text s => Val (Str.take 4 s)
         | Absent => Raised TypeError
         end;
  '(distro, version, variant) ← match os_name with
                                | Text s => parse_os_name s
                                | Absent => Raised AttributeError
                                end;
  let dir_path :=
    if negb (bool_decide (variant = "")) then
      Path.join base_dir ["tuxcare"; distro; version; variant; year]
    else
      Path.join base_dir ["tuxcare"; distro; version; year] in
  let file_name := match cve with Text s => s | Absent => "None" end +:+ ".json" in
  mret (dir_path, Path.join dir_path [file_name]).

(** The canonical path of a row, when it has one. *)
Definition file_path_of (base_dir : string) (e : entry) : option string :=
  match entry_paths base_dir e with
  | Val (_, file_path) => Some file_path
  | Raised _ => None
  end.

(** One turn of the loop.  An exception raised before the paths are known
    is caught by one of the two handlers, which print and [continue]; a
    file that exists and cannot be read is warned about and written. *)
Definition process_entry (base_dir : string) (st : batch) (e : entry) : batch :=
  match entry_paths base_dir e with
  | Raised _ => st
  | Val (dir_path, file_path) =>
      if decide (file_path ∈ created_files st) then st
      else
        let new_content := dumps e in
        let write_file :=
          {| disk := <[file_path := Readable new_content]> (disk st);
             created_files := {[file_path]} ∪ created_files st;
             file_count := S (file_count st);
             unchanged_count := unchanged_count st;
             written := file_path :: written st |} in
        match disk st !! file_path with
        | Some (Readable existing_content) =>
            if decide (existing_content = new_content) then
              {| disk := disk st;
                 created_files := {[file_path]} ∪ created_files st;
                 file_count := file_count st;
                 unchanged_count := S (unchanged_count st);
                 written := written st |}
            else write_file
        | Some Unreadable => write_file
        | None => write_file
        end
  end.

Definition start (d : gmap string file) : batch :=
  {| disk := d; created_files := ∅; file_count := 0; unchanged_count := 0; written := [] |}.

(** The state at the end of the loop; the function returns its
    [file_count] and prints its [unchanged_count]. *)
Definition create_json_files (data : list entry) (base_dir : string)
    (d : gmap string file) : batch :=
  foldl (process_entry base_dir) (start d) data.

End Writer.

(** ** A directory tree, for running the resolver on examples

    The names of a directory are listed in the order of its entries.  A path
    is looked up by its segments between slashes, an empty segment and [.]
    standing for the directory itself. *)

#[warnings="-register-all"]
Inductive node : Type :=
  | FileNode (content : loaded)
  | DirNode (entries : list (string * node)).

Module Tree.

Definition segments (path : string) : list string :=
  List.filter (λ s, negb (bool_decide (s = "")) && negb (bool_decide (s = ".")))
              (Str.split_on "/" path).

Fixpoint descend (segs : list string) (n : node) : option node :=
  match segs with
  | [] => Some n
  | s :: rest =>
      match n with
      | DirNode entries =>
          match dict_get s entries with
          | Some child => descend rest child
          | None => None
          end
      | FileNode _ => None
      end
  end.

Definition find (t : node) (path : string) : option node :=
  descend (segments path) t.

Definition is_dir (n : node) : bool :=
  match n with DirNode _ => true | FileNode _ => false end.

Definition hidden (name : string) : bool := Str.startswith "." name.

(** What [**/*.json] matches below the directory [n] named [prefix]. *)
Fixpoint json_below (prefix : string) (n : node) : list string :=
  match n with
  | FileNode _ => []
  | DirNode entries =>
      (((λ e, Path.join prefix [e.1])
          <$> List.filter (λ e, negb (hidden e.1) && Str.endswith ".json" e.1) entries)
       ++ (fix below (es : list (string * node)) : list string :=
             match es with
             | [] => []
             | (name, child) :: rest =>
                 (if hidden name then [] else json_below (Path.join prefix [name]) child)
                 ++ below rest
             end) entries)%list
  end.

(** [os.walk(top)], top-down. *)
Fixpoint walk (top : string) (n : node) : list (string * list string * list string) :=
  match n with
  | FileNode _ => []
  | DirNode entries =>
      (top,
       (List.filter (λ e, is_dir e.2) entries).*1,
       (List.filter (λ e, negb (is_dir e.2)) entries).*1)
      :: (fix below (es : list (string * node)) :=
            match es with
            | [] => []
            | (name, child) :: rest => (walk (Path.join top [name]) child ++ below rest)%list
            end) entries
  end.

Definition strip_suffix (suffix s : string) : option string :=
  if Str.endswith suffix s
  then Some (Str.take (String.length s - String.length suffix) s)
  else None.

Definition file_system (t : node) : FileSystem :=
  {| fs_exists path := bool_decide (is_Some (find t path));
     fs_isdir path := from_option is_dir false (find t path);
     fs_listdir path :=
       match find t path with
       | Some (DirNode entries) => Val entries.*1
       | _ => Raised OSError
       end;
     fs_glob pattern :=
       match strip_suffix "/**/*.json" pattern with
       | Some dir => from_option (json_below dir) [] (find t dir)
       | None => []
       end;
     fs_walk top := from_option (walk top) [] (find t top);
     fs_load path :=
       match find t path with
       | Some (FileNode content) => content
       | _ => LoadFails
       end |}.

End Tree.

(** ** What the specification says, in its own words *)

(** The shape [CVE-<year>-<sequence>]: the three parts between the dashes are
    [CVE], a year in digits and a sequence number in digits. *)
Definition number (s : string) : bool :=
  negb (bool_decide (s = "")) && Str.all Str.is_digit s.

Definition cve_shape (cve_id : string) : bool :=
  match Str.split_on "-" cve_id with
  | [tag; year; sequence] => bool_decide (tag = "CVE") && number year && number sequence
  | _ => false
  end.

(** A query turned away: nothing is returned, the format error is printed,
    and no call reaches the file system. *)
Definition rejected_unsearched (r : io (option string)) : Prop :=
  result r = Val None
  ∧ Print invalid_format ∈ log r
  ∧ Forall (λ e, touched e = None) (log r).

(** The three kinds of source root and the order in which the resolver is to
    go through the roots. *)
Inductive matcher : Type :=
  | DirectKeyed
  | AdvisoryNested
  | VersionKeyed.

Definition source_roots : list (string * matcher) :=
  [("nvd", DirectKeyed); ("ubuntu", DirectKeyed); ("debian", DirectKeyed);
   ("ghsa", AdvisoryNested);
   ("alpine", VersionKeyed); ("amazon", VersionKeyed); ("oracle", VersionKeyed);
   ("photon", VersionKeyed); ("redhat", VersionKeyed); ("suse", VersionKeyed)].

(** [probe(root, cve_id) -> optional path], one per kind of root. *)
Definition probe (fs : FileSystem) (repo_root year cve_id : string)
    (root : string * matcher) : io (option string) :=
  match root.2 with
  | DirectKeyed => probe_direct fs repo_root root.1 year cve_id
  | AdvisoryNested => probe_ghsa fs repo_root cve_id
  | VersionKeyed => probe_versioned fs repo_root cve_id root.1
  end.

(** The roots are probed in order until one gives a path. *)
Definition first_match (fs : FileSystem) (repo_root year cve_id : string)
    (roots : list (string * matcher)) : io (option string) :=
  for_each roots (probe fs repo_root year cve_id).

(** The year of an identifier that starts with [CVE-]. *)
Definition year_of (cve_id : string) : string :=
  default "" (Str.split_on "-" cve_id !! 1).

(** An entry of an identifier list that names the CVE [cve_id]. *)
Definition names_cve (cve_id : string) (identifier : json) : Prop :=
  py_get identifier "Type" = Val (JStr "CVE")
  ∧ py_get identifier "Value" = Val (JStr cve_id).

Definition is_object (v : json) : bool :=
  match v with JObj _ => true | _ => false end.

(** The provenance labels by source name, in priority order; the label of
    an Alpine file names the release and the repository it lies in. *)
Definition alpine_label (file_path : string) : string :=
  "Alpine Linux ("
    +:+ Path.basename (Path.dirname (Path.dirname file_path))
    +:+ "/" +:+ Path.basename (Path.dirname file_path) +:+ ")".

Definition known_sources : list (string * (string → string)) :=
  [("nvd", λ _, "NVD (National Vulnerability Database)");
   ("ghsa", λ _, "GHSA (GitHub Security Advisory)");
   ("alpine", alpine_label);
   ("debian", λ _, "Debian Linux");
   ("ubuntu", λ _, "Ubuntu Linux");
   ("amazon", λ _, "Amazon Linux");
   ("oracle", λ _, "Oracle Linux");
   ("photon", λ _, "VMware Photon OS");
   ("redhat", λ _, "Red Hat Linux");
   ("suse", λ _, "SUSE Linux")].

Definition label_by_priority (file_path : string) : string :=
  match List.find (λ src, Str.contains src.1 file_path) known_sources with
  | Some src => src.2 file_path
  | None => unknown_source
  end.

(** The first row of a batch whose canonical path is [path]. *)
Definition first_for (base_dir path : string) (data : list entry) : option entry :=
  List.find (λ e, bool_decide (file_path_of base_dir e = Some path)) data.

(** What the counters and the list of writes keep true of one another: no
    path is written twice, every write is counted once, and every path
    handled is counted once, as created or as unchanged. *)
Definition accounted (st : batch) : Prop :=
  NoDup (written st)
  ∧ (∀ p, p ∈ written st → p ∈ created_files st)
  ∧ List.length (written st) = file_count st
  ∧ file_count st + unchanged_count st = size (created_files st).

(** ** Examples to run the embedding on *)

Definition advisory (identifiers : list json) : json :=
  JObj [("Advisory", JObj [("Identifiers", JArr identifiers)])].

Definition cve_identifier (cve_id : string) : json :=
  JObj [("Type", JStr "CVE"); ("Value", JStr cve_id)].

(** A repository with one advisory-nested root and one file in it. *)
Definition ghsa_only (data : json) : node :=
  DirNode [("repo", DirNode [("ghsa", DirNode [("pip", DirNode [("django",
    DirNode [("GHSA-2hrw-hx67-34x6.json", FileNode (Loaded data))])])])])].

(** A repository with one direct-keyed root and one file in it. *)
Definition nvd_only : node :=
  DirNode [("repo", DirNode [("nvd", DirNode [("2022",
    DirNode [("CVE-2022-1664.json", FileNode (Loaded (JObj [("id", JStr "CVE-2022-1664")])))])])])].

Definition empty_repo : node := DirNode [("repo", DirNode [])].

Definition row (cve os_name last_updated : string) : entry :=
  [("CVE", Text cve); ("OS name", Text os_name); ("Last updated", Text last_updated)].

(** A serialiser to run the writer with: one line per item. *)
Definition dumps_lines (e : entry) : string :=
  foldr (λ kv acc,
           kv.1 +:+ ": " +:+ match kv.2 with Text s => s | Absent => "null" end
                +:+ "
" +:+ acc) "" e.

(** ** [get-cve.py]: the command

    [json.dumps(cve_data, indent=2)] is a function of the document; the
    script name is [argv[0]]. *)

Definition help_usage : string :=
  "USAGE:  
  get-cve.py <CVE-ID> [options]
".

Definition help_arguments : string :=
  "ARGUMENTS:
  <CVE-ID>              The CVE ID to search for (e.g., CVE-2022-1664)
".

Definition help_options : string :=
  "OPTIONS:
  --help                Display this help message
  --source SOURCE       Limit search to a specific source
".

Definition help_sources : string :=
  "AVAILABLE SOURCES:
  nvd                   National Vulnerability Database
  ghsa                  GitHub Security Advisories
  alpine                Alpine Linux vulnerabilities
  debian                Debian Linux vulnerabilities
  ubuntu                Ubuntu Linux vulnerabilities
  amazon                Amazon Linux vulnerabilities
  oracle                Oracle Linux vulnerabilities
  photon                VMware Photon OS vulnerabilities
  redhat                Red Hat Linux vulnerabilities
  suse                  SUSE Linux vulnerabilities
".

Definition help_examples : string :=
  "EXAMPLES:
  get-cve.py CVE-2022-1664
  get-cve.py CVE-2022-1664 --source alpine
  get-cve.py CVE-2022-1664 --source nvd
".

(** [if v:] for what [get_cve_info] returns. *)
Definition truthy_json (v : option json) : bool :=
  match v with
  | None | Some JNull => false
  | Some (JBool b) => b
  | Some (JNum n) => negb (bool_decide (n = 0%Z))
  | Some (JStr s) => negb (bool_decide (s = ""))
  | Some (JArr xs) => negb (bool_decide (xs = []))
  | Some (JObj items) => negb (bool_decide (items = []))
  end.

Section Command.

Variable fs : FileSystem.
Variable repo_root : string.
Variable dumps_json : json → string.

Definition print_cve_info (cve_data : option json) : io unit :=
  if negb (truthy_json cve_data) then mret ()
  else
    match cve_data with
    | Some data => print (dumps_json data)
    | None => mret ()
    end.

Definition print_help : io unit :=
  print help_usage;;
  print help_arguments;;
  print help_options;;
  print help_sources;;
  print help_examples.

(** [main()], for [sys.argv = argv]; the value is the exit status. *)
Definition main (argv : list string) : io nat :=
  if (List.length argv <? 2)%nat || bool_decide ("--help" ∈ argv) then
    print_help;;
    mret (if bool_decide ("--help" ∈ argv) then 0 else 1)%nat
  else
    cve_id ← lift (getitem argv 1);
    flagged ← (if (2 <? List.length argv)%nat then
                 a2 ← lift (getitem argv 2);
                 mret (bool_decide (a2 = "--source") && (3 <? List.length argv)%nat)
               else mret false);
    source ← (if (flagged : bool) then a3 ← lift (getitem argv 3); mret (Some a3)
            else mret None);
    cve_data ← get_cve_info fs repo_root cve_id source;
    if truthy_json cve_data then
      print_cve_info cve_data;; mret 0%nat
    else mret 1%nat.

End Command.

(** ** [update_tuxcare_csv.py]: fetching the feed

    The working directory is a store of regular files by name, with their
    bytes.  [hashlib.sha256(...).hexdigest()] is a function of the bytes.  The
    answer of [requests.get] is the body of the reply, or nothing when the
    request or [raise_for_status] raises.  Lines printed are left out; they
    carry the time of day. *)

Module Update.

Definition LOCAL_CSV_PATH : string := "tuxcare.csv".
Definition NEW_CSV_PATH : string := "tuxcare.csv.new".
Definition UPDATED_CSV_PATH : string := "tuxcare_updated.csv".

(** [os.rename(src, dst)] *)
Definition rename (src dst : string) (files : gmap string string)
    : outcome (gmap string string) :=
  match files !! src with
  | Some content => Val (<[dst := content]> (delete src files))
  | None => Raised OSError
  end.

(** [os.remove(path)] *)
Definition remove (path : string) (files : gmap string string)
    : outcome (gmap string string) :=
  match files !! path with
  | Some _ => Val (delete path files)
  | None => Raised OSError
  end.

(** [open(path, 'rb').read()] *)
Definition read (path : string) (files : gmap string string) : outcome string :=
  match files !! path with
  | Some content => Val content
  | None => Raised OSError
  end.

Section Feed.

Variable sha256 : string → string.

Definition download_csv (response : option string) (files : gmap string string)
    : gmap string string * bool :=
  match response with
  | Some content => (<[NEW_CSV_PATH := content]> files, true)
  | None => (files, false)
  end.

(** Nothing is changed before the last statement of a branch, so a call
    that raises leaves the store as it was. *)
Definition check_for_changes (files : gmap string string)
    : outcome (gmap string string * bool) :=
  if negb (bool_decide (is_Some (files !! LOCAL_CSV_PATH))) then
    files' ← rename NEW_CSV_PATH UPDATED_CSV_PATH files;
    mret (files', true)
  else
    old ← read LOCAL_CSV_PATH files;
    let old_hash := sha256 old in
    new ← read NEW_CSV_PATH files;
    let new_hash := sha256 new in
    if negb (bool_decide (old_hash = new_hash)) then
      files' ← rename NEW_CSV_PATH UPDATED_CSV_PATH files;
      mret (files', true)
    else
      files' ← remove NEW_CSV_PATH files;
      mret (files', false).

(** [main()]: the store it leaves, the status it exits with, and whether it
    reported a change. *)
Definition main (response : option string) (files : gmap string string)
    : outcome (gmap string string * nat * bool) :=
  let '(files1, success) := download_csv response files in
  if negb success then mret (files1, 1%nat, false)
  else
    '(files2, changes) ← check_for_changes files1;
    mret (files2, 0%nat, changes).

End Feed.

End Update.

(** ** Notions used to state further properties *)

(** No character of [s] is white space. *)
Definition no_space (s : string) : bool := Str.all (λ c, negb (Str.is_space c)) s.

(** The source the command line names: the word after [--source], when
    [--source] is the first word after the identifier. *)
Definition source_option (rest : list string) : option string :=
  match rest with
  | flag :: value :: _ => if decide (flag = "--source") then Some value else None
  | _ => None
  end.

(** The fields of a row the writer cannot do without. *)
Definition usable (e : entry) : Prop :=
  is_Some (dict_get "CVE" e)
  ∧ (∃ os_name, dict_get "OS name" e = Some (Text os_name)
                ∧ is_val (parse_os_name os_name) = true)
  ∧ (∃ last_updated, dict_get "Last updated" e = Some (Text last_updated)).

Definition is_array (v : json) : bool :=
  match v with JArr _ => true | _ => false end.

(** A document that is neither a string nor a list nor an object. *)
Definition is_scalar (v : json) : bool :=
  match v with JNull | JBool _ | JNum _ => true | _ => false end.

(** What the file loop of the advisory block does to a file it passes over:
    it opens it, and prints a warning when it cannot be loaded. *)
Definition passed_over (fs : FileSystem) (json_file : string) : list event :=
  match fs_load fs json_file with
  | LoadFails => [Open json_file; Print ("Warning: Could not parse " +:+ json_file +:+ ": ")]
  | _ => [Open json_file]
  end.

(** A repository with the Alpine root only: one package file and one file
    that is not JSON. *)
Definition alpine_only : node :=
  DirNode [("repo", DirNode [("alpine", DirNode [("3.10", DirNode [("main",
    DirNode [("README", FileNode LoadFails);
             ("dpkg.json",
              FileNode (Loaded (JObj [("pkgname", JStr "dpkg");
                                      ("secfixes",
                                       JObj [("1.19.7-r1", JArr [JStr "CVE-2022-1664"])])])))])])])])].

(** An advisory root with a file that does not parse before the one that
    lists the CVE. *)
Definition ghsa_with_broken_file : node :=
  DirNode [("repo", DirNode [("ghsa", DirNode [("pip", DirNode
    [("a-broken.json", FileNode LoadFails);
     ("b-other.json", FileNode (Loaded (advisory [cve_identifier "CVE-2020-0001"])));
     ("c-wanted.json", FileNode (Loaded (advisory [cve_identifier "CVE-2021-9999"])));
     ("d-later.json", FileNode (Loaded (advisory [cve_identifier "CVE-2021-9999"])))])])])].

(** An advisory root whose first file holds a number. *)
Definition ghsa_with_number : node :=
  DirNode [("repo", DirNode [("ghsa", DirNode [("pip", DirNode
    [("count.json", FileNode (Loaded (JNum 3)))])])])].

(** A name with no slash in it, as the name of a file or a directory is. *)
Definition slash_free (s : string) : bool := negb (Path.has_sep s).

(** Whether the feed fetched differs from the local one, as
    [check_for_changes] judges it: there is no local file, or the two
    digests differ. *)
Definition feed_changed (sha256 : string → string) (files : gmap string string)
    (new : string) : bool :=
  match files !! Update.LOCAL_CSV_PATH with
  | None => true
  | Some old => negb (bool_decide (sha256 old = sha256 new))
  end.

(** ** Proof steps used more than once *)

(** Branch on the first decision the goal tests. *)
Ltac branch_on_decide :=
  match goal with
  | |- context [decide ?P] => destruct (decide P)
  | |- context [bool_decide ?P] => destruct (bool_decide_reflect P)
  end.

(** Run the binds of a block whose calls have been given their answers. *)
Ltac run_io :=
  unfold or_next;
  cbn [mbind io_bind mret io_ret tell print raise lift log result for_each app].

(** * Properties *)

(** ** Strings *)

Lemma upper_char_idemp c : Str.upper_char (Str.upper_char c) = Str.upper_char c.
Proof. by destruct c as [[] [] [] [] [] [] [] []]. Qed.

Lemma upper_idemp s : Str.upper (Str.upper s) = Str.upper s.
Proof.
  induction s as [|c s IH]; [done|].
  cbn. by rewrite upper_char_idemp, IH.
Qed.

Lemma startswith_app p s : Str.startswith p (p +:+ s) = true.
Proof.
  induction p as [|c p IH]; [done|].
  change (bool_decide (c = c) && Str.startswith p (p +:+ s) = true).
  rewrite IH. by rewrite bool_decide_eq_true_2.
Qed.

Lemma startswith_inv p s : Str.startswith p s = true → ∃ t, s = p +:+ t.
Proof.
  revert s. induction p as [|c p IH]; intros s H.
  - by exists s.
  - destruct s as [|d s]; [done|]. cbn in H.
    apply andb_true_iff in H as [Hc Hp]. apply bool_decide_eq_true in Hc as ->.
    destruct (IH _ Hp) as [t ->]. by exists t.
Qed.

Lemma split_at_cons sep tok s : ∃ x xs, Str.split_at sep tok s = x :: xs.
Proof.
  revert tok. induction s as [|c s IH]; intros tok; cbn; [by eauto|].
  case_decide; [by eauto | apply IH].
Qed.

(** An identifier that starts with [CVE-] has a second part, so the handler
    of [IndexError] in [find_cve_file] is never entered. *)
Lemma year_exists cve_id :
  Str.startswith "CVE-" cve_id = true →
  getitem (Str.split_on "-" cve_id) 1 = Val (year_of cve_id).
Proof.
  intros H. apply startswith_inv in H as [t ->].
  unfold year_of.
  change (Str.split_on "-" ("CVE-" +:+ t)) with ("CVE" :: Str.split_at "-" "" t).
  by destruct (split_at_cons "-" "" t) as (x & xs & ->).
Qed.

(** ** The identifier normaliser *)

Lemma parse_os_name_parts os_name :
  parse_os_name os_name =
    match Str.split os_name with
    | [] => Raised IndexError
    | p0 :: rest =>
        if decide (p0 = "CentOS" ∧ rest !! 0 = Some "Stream") then
          match rest !! 1 with
          | Some p2 => Val ("CentOS", "Stream" +:+ p2, default "" (rest !! 2))
          | None => Raised IndexError
          end
        else if decide (p0 = "Oracle" ∧ rest !! 0 = Some "Linux") then
          Val ("OracleLinux", default "" (rest !! 1), default "" (rest !! 2))
        else Val (p0, default "" (rest !! 0), default "" (rest !! 1))
    end.
Proof.
  unfold parse_os_name.
  destruct (Str.split os_name) as [|p0 [|p1 [|p2 [|p3 rest]]]]; cbn; [done|..];
    repeat (branch_on_decide; cbn); subst; try done; exfalso; intuition congruence.
Qed.

Lemma append_nil_r s : s +:+ "" = s.
Proof.
  induction s as [|c s IH]; [done|].
  change (String c (s +:+ "") = String c s). by f_equal.
Qed.

Lemma append_assoc s t u : (s +:+ t) +:+ u = s +:+ t +:+ u.
Proof.
  induction s as [|c s IH]; [done|].
  change (String c ((s +:+ t) +:+ u) = String c (s +:+ t +:+ u)). by f_equal.
Qed.

(** A name of three words separated by single blanks splits into its words. *)
Lemma split_ws_word tok w rest :
  Str.all (λ c, negb (Str.is_space c)) w = true →
  Str.split_ws tok (w +:+ rest) = Str.split_ws (tok +:+ w) rest.
Proof.
  revert tok. induction w as [|c w IH]; intros tok Hw.
  - by rewrite append_nil_r.
  - cbn in Hw. apply andb_true_iff in Hw as [Hc Hw].
    apply negb_true_iff in Hc.
    change (Str.split_ws tok (String c (w +:+ rest)) = Str.split_ws (tok +:+ String c w) rest).
    cbn. rewrite Hc, (IH _ Hw). unfold Str.snoc.
    by rewrite append_assoc.
Qed.

Lemma split_ws_blank tok rest :
  tok ≠ "" → Str.split_ws tok (" " +:+ rest) = tok :: Str.split_ws "" rest.
Proof.
  intros Htok.
  change (Str.split_ws tok (" " +:+ rest))
    with (if decide (tok = "") then Str.split_ws "" rest else tok :: Str.split_ws "" rest).
  by destruct (decide (tok = "")).
Qed.

Lemma split_ws_end tok : tok ≠ "" → Str.split_ws tok "" = [tok].
Proof. intros Htok. cbn. by destruct (decide (tok = "")). Qed.

Lemma split_three_words t0 t1 t2 :
  Forall (λ w, w ≠ "" ∧ Str.all (λ c, negb (Str.is_space c)) w = true) [t0; t1; t2] →
  Str.split (t0 +:+ " " +:+ t1 +:+ " " +:+ t2) = [t0; t1; t2].
Proof.
  intros H. apply Forall_cons in H as [[N0 H0] H].
  apply Forall_cons in H as [[N1 H1] H]. apply Forall_cons in H as [[N2 H2] _].
  unfold Str.split.
  rewrite (split_ws_word _ _ _ H0). change ("" +:+ t0) with t0.
  rewrite (split_ws_blank _ _ N0).
  rewrite (split_ws_word _ _ _ H1). change ("" +:+ t1) with t1.
  rewrite (split_ws_blank _ _ N1).
  rewrite <- (append_nil_r t2) at 1.
  rewrite (split_ws_word _ _ _ H2). change ("" +:+ t2) with t2.
  by rewrite (split_ws_end _ N2).
Qed.

(** C2.  The normaliser does not return a triplet for every input: where the
    name has no word at all, or is exactly the two words [CentOS Stream], it
    raises [IndexError] ([parts[0]] and [parts[2]] are read without the test
    on the length that guards every other index), and these are the only
    names on which it raises. *)
Theorem parse_os_name_raises_on_short_names :
  parse_os_name "CentOS Stream" = Raised IndexError
  ∧ parse_os_name "" = Raised IndexError
  ∧ ∀ os_name,
      is_val (parse_os_name os_name) = false
      ↔ Str.split os_name = [] ∨ Str.split os_name = ["CentOS"; "Stream"].
Proof.
  split; [done|]. split; [done|].
  intros os_name. rewrite parse_os_name_parts.
  destruct (Str.split os_name) as [|p0 rest]; [by split; auto|].
  destruct (decide (p0 = "CentOS" ∧ rest !! 0 = Some "Stream")) as [[-> Hst]|Hno].
  - destruct rest as [|p1 [|p2 rest]]; simplify_eq/=.
    + split; auto.
    + split; [done|]. by intros [|].
  - split; [|by intros [|[= -> ->]]; [|destruct Hno]].
    by destruct (decide (p0 = "Oracle" ∧ rest !! 0 = Some "Linux")).
Qed.

(** C3.  A name of exactly three words that is neither a CentOS Stream nor an
    Oracle Linux name is returned word by word, and the two special cases
    give the merged forms. *)
Theorem parse_os_name_three_tokens :
  (∀ os_name t0 t1 t2,
     Str.split os_name = [t0; t1; t2] →
     ¬ (t0 = "CentOS" ∧ t1 = "Stream") →
     ¬ (t0 = "Oracle" ∧ t1 = "Linux") →
     parse_os_name os_name = Val (t0, t1, t2))
  ∧ parse_os_name "CentOS Stream 8 ELS" = Val ("CentOS", "Stream8", "ELS")
  ∧ parse_os_name "Oracle Linux 7 ELS" = Val ("OracleLinux", "7", "ELS").
Proof.
  split; [|done].
  intros os_name t0 t1 t2 Hparts Hcentos Horacle.
  rewrite parse_os_name_parts, Hparts. cbn.
  rewrite decide_False by (intros [-> [= ->]]; auto).
  rewrite decide_False by (intros [-> [= ->]]; auto).
  done.
Qed.

Lemma parse_os_name_three_tokens_witness :
  parse_os_name "AlmaLinux 9.2 ESU" = Val ("AlmaLinux", "9.2", "ESU").
Proof.
  apply (proj1 parse_os_name_three_tokens "AlmaLinux 9.2 ESU").
  - reflexivity.
  - intros [H _]. discriminate H.
  - intros [H _]. discriminate H.
Defined.

(** ** Blocks, loops and their logs *)

Lemma io_eta {A} (m : io A) : Io (log m) (result m) = m.
Proof. by destruct m. Qed.

Lemma bind_val {A B} (f : A → io B) l a :
  Io l (Val a) ≫= f = Io (l ++ log (f a)) (result (f a)).
Proof. done. Qed.

Lemma or_next_none_l {A} (b : io (option A)) : (mret None ;;; b) = b.
Proof. by destruct b. Qed.

Lemma or_next_none_r {A} (a : io (option A)) : (a ;;; mret None) = a.
Proof.
  destruct a as [l [[v|]|e]]; unfold or_next, mbind, io_bind; cbn;
    by rewrite ?app_nil_r.
Qed.

Lemma or_next_assoc {A} (a b c : io (option A)) : ((a ;;; b) ;;; c) = (a ;;; b ;;; c).
Proof.
  destruct a as [la [[v|]|e]], b as [lb [[w|]|e']], c as [lc rc];
    unfold or_next, mbind, io_bind; cbn; by rewrite ?app_nil_r, ?app_assoc.
Qed.

(** A block that returns ends the run: what follows it is not executed. *)
Lemma or_next_returns {A} (a b : io (option A)) v :
  result a = Val (Some v) → (a ;;; b) = a.
Proof.
  destruct a as [la ra]; cbn; intros ->.
  unfold or_next, mbind, io_bind; cbn. by rewrite app_nil_r.
Qed.

Lemma or_next_raises {A} (a b : io (option A)) e :
  result a = Raised e → (a ;;; b) = a.
Proof. destruct a as [la ra]; cbn; by intros ->. Qed.

Lemma or_next_falls_through {A} (a b : io (option A)) :
  result a = Val None → (a ;;; b) = Io (log a ++ log b) (result b).
Proof. destruct a as [la ra]; cbn; by intros ->. Qed.

Lemma for_each_app {X A} (xs ys : list X) (body : X → io (option A)) :
  for_each (xs ++ ys) body = (for_each xs body ;;; for_each ys body).
Proof.
  induction xs as [|x xs IH]; cbn.
  - by rewrite or_next_none_l.
  - by rewrite IH, or_next_assoc.
Qed.

Lemma for_each_fmap {X Y A} (f : X → Y) (xs : list X) (body : Y → io (option A)) :
  for_each (f <$> xs) body = for_each xs (λ x, body (f x)).
Proof. induction xs as [|x xs IH]; [done|]. cbn. by rewrite IH. Qed.

Lemma for_each_one {X A} (x : X) (body : X → io (option A)) :
  for_each [x] body = body x.
Proof. apply or_next_none_r. Qed.

(** The loop stops at the first turn that returns: the turns before it all
    fell through, and nothing of the turns after it is run. *)
Lemma for_each_first {X A} (before after : list X) (x : X) (body : X → io (option A)) v :
  Forall (λ y, result (body y) = Val None) before →
  result (body x) = Val (Some v) →
  for_each (before ++ x :: after) body
  = Io (concat ((λ y, log (body y)) <$> before) ++ log (body x)) (Val (Some v)).
Proof.
  intros Hbefore Hx. induction Hbefore as [|y before Hy _ IH]; cbn.
  - rewrite (or_next_returns _ _ v Hx). by rewrite <- Hx, io_eta.
  - rewrite (or_next_falls_through _ _ Hy), IH. cbn. by rewrite app_assoc.
Qed.

Lemma for_each_none {X A} (xs : list X) (body : X → io (option A)) :
  Forall (λ y, result (body y) = Val None) xs →
  for_each xs body = Io (concat ((λ y, log (body y)) <$> xs)) (Val None).
Proof.
  intros H. induction H as [|y xs Hy _ IH]; cbn; [done|].
  by rewrite (or_next_falls_through _ _ Hy), IH.
Qed.

(** ** The source resolver *)

Section ResolverFacts.

Variable fs : FileSystem.
Variable repo_root : string.

(** The five guarded blocks of [find_cve_file], once the identifier has
    passed the test on its beginning. *)
Lemma find_cve_file_blocks cve_id source :
  Str.startswith "CVE-" (Str.upper cve_id) = true →
  find_cve_file fs repo_root cve_id source =
    let c := Str.upper cve_id in
    let year := year_of c in
    ((if source_is source "nvd" then probe_direct fs repo_root "nvd" year c else mret None) ;;;
     (if source_is source "ubuntu" then probe_direct fs repo_root "ubuntu" year c else mret None) ;;;
     (if source_is source "debian" then probe_direct fs repo_root "debian" year c else mret None) ;;;
     (if source_is source "ghsa" then probe_ghsa fs repo_root c else mret None) ;;;
     (if source_in source versioned_sources then
        for_each (match source with
                  | Some s => [Str.lower s]
                  | None => versioned_sources
                  end) (probe_versioned fs repo_root c)
      else mret None)).
Proof.
  intros Hprefix. unfold find_cve_file.
  rewrite Hprefix, (year_exists _ Hprefix). cbn [negb].
  rewrite or_next_none_r.
  destruct source as [s|]; [|done].
  destruct (source_in (Some s) versioned_sources) eqn:Hin; [|done].
  assert (Str.lower s ≠ "") as Hlower.
  { cbn in Hin. apply bool_decide_eq_true in Hin. intros E. rewrite E in Hin.
    by repeat (apply elem_of_cons in Hin as [Hin|Hin]; [done|]);
      apply elem_of_nil in Hin. }
  rewrite decide_False by (by intros ->).
  by rewrite decide_False.
Qed.

Lemma find_cve_file_unfiltered cve_id :
  Str.startswith "CVE-" (Str.upper cve_id) = true →
  find_cve_file fs repo_root cve_id None
  = first_match fs repo_root (year_of (Str.upper cve_id)) (Str.upper cve_id) source_roots.
Proof.
  intros Hprefix. rewrite (find_cve_file_blocks _ _ Hprefix).
  cbn [source_is source_in]. unfold first_match.
  change source_roots with
    ([("nvd", DirectKeyed); ("ubuntu", DirectKeyed); ("debian", DirectKeyed);
      ("ghsa", AdvisoryNested)] ++ ((λ d, (d, VersionKeyed)) <$> versioned_sources))%list.
  rewrite for_each_app, for_each_fmap. cbn [for_each].
  by rewrite !or_next_assoc, or_next_none_l.
Qed.

End ResolverFacts.

Lemma filter_none {A} (f : A → bool) (l : list A) :
  Forall (λ x, f x = false) l → List.filter f l = [].
Proof. induction 1 as [|x l Hx _ IH]; [done|]. cbn. by rewrite Hx. Qed.

Lemma filter_unknown_source n :
  n ∉ source_roots.*1 →
  List.filter (λ r : string * matcher, bool_decide (r.1 = n)) source_roots = [].
Proof.
  intros Hout. apply filter_none, Forall_forall. intros r Hr.
  apply bool_decide_eq_false_2. intros <-. apply Hout.
  by apply (list_elem_of_fmap_2 fst).
Qed.

Lemma versioned_in_roots n : n ∈ versioned_sources → n ∈ source_roots.*1.
Proof.
  intros H.
  change (source_roots.*1) with (["nvd"; "ubuntu"; "debian"; "ghsa"] ++ versioned_sources)%list.
  apply elem_of_app. by right.
Qed.

Section ResolverFilter.

Variable fs : FileSystem.
Variable repo_root : string.

(** With a source named, exactly the roots of that name are probed. *)
Lemma find_cve_file_filtered cve_id source :
  Str.startswith "CVE-" (Str.upper cve_id) = true →
  find_cve_file fs repo_root cve_id (Some source)
  = first_match fs repo_root (year_of (Str.upper cve_id)) (Str.upper cve_id)
      (List.filter (λ r, bool_decide (r.1 = Str.lower source)) source_roots).
Proof.
  intros Hprefix. rewrite (find_cve_file_blocks _ _ _ _ Hprefix).
  cbn [source_is source_in]. unfold first_match.
  generalize (Str.lower source) as n. intros n.
  destruct (decide (n ∈ source_roots.*1)) as [Hin|Hout].
  - cbn in Hin.
    repeat (apply elem_of_cons in Hin as [->|Hin];
            [ vm_compute (List.filter _ _); vm_compute (bool_decide _);
              cbn [for_each]; by rewrite ?or_next_none_l, ?or_next_none_r | ]).
    by apply elem_of_nil in Hin.
  - rewrite (filter_unknown_source _ Hout).
    rewrite !bool_decide_eq_false_2; [by rewrite !or_next_none_l | ..];
      intros E; apply Hout; [by apply versioned_in_roots | subst n ..]; cbn;
      repeat first [apply list_elem_of_here | apply list_elem_of_further].
Qed.

End ResolverFilter.

Lemma split_at_second sep tok s x y rest :
  Str.split_at sep tok s = x :: y :: rest → ∃ t, tok +:+ s = x +:+ String sep t.
Proof.
  revert tok. induction s as [|c s IH]; intros tok; cbn; [done|].
  destruct (decide (c = sep)) as [->|_].
  - intros [= <- _]. by exists s.
  - intros H. destruct (IH _ H) as [t Ht]. exists t.
    rewrite <- Ht. unfold Str.snoc. by rewrite append_assoc.
Qed.

(** Every identifier of the shape [CVE-<year>-<sequence>] starts with
    [CVE-]. *)
Lemma cve_shape_prefix cve_id :
  cve_shape cve_id = true → Str.startswith "CVE-" cve_id = true.
Proof.
  unfold cve_shape, Str.split_on.
  destruct (Str.split_at "-" "" cve_id) as [|tag [|year [|seq [|]]]] eqn:E; try done.
  intros H. apply andb_true_iff in H as [H _]. apply andb_true_iff in H as [H _].
  apply bool_decide_eq_true in H as ->.
  destruct (split_at_second _ _ _ _ _ _ E) as [t Ht].
  change ("" +:+ cve_id) with cve_id in Ht. rewrite Ht.
  exact (startswith_app "CVE-" t).
Qed.

Lemma find_cve_file_bad_prefix fs repo_root cve_id source :
  Str.startswith "CVE-" (Str.upper cve_id) = false →
  find_cve_file fs repo_root cve_id source = Io [Print invalid_format] (Val None).
Proof. intros Hprefix. unfold find_cve_file. by rewrite Hprefix. Qed.

(** C1, as the code has it.  The resolver tests the beginning of the
    identifier only: an identifier whose upper-case form does not start with
    [CVE-] is turned away with the format error before any call to the file
    system, and [not-a-cve] is one of them.  Every such identifier lacks the
    shape [CVE-<year>-<sequence>]. *)
Theorem find_cve_file_rejects_bad_prefix :
  (∀ fs repo_root cve_id source,
     Str.startswith "CVE-" (Str.upper cve_id) = false →
     find_cve_file fs repo_root cve_id source = Io [Print invalid_format] (Val None)
     ∧ rejected_unsearched (find_cve_file fs repo_root cve_id source)
     ∧ cve_shape (Str.upper cve_id) = false)
  ∧ (∀ fs repo_root,
       find_cve_file fs repo_root "not-a-cve" None = Io [Print invalid_format] (Val None)).
Proof.
  split; [|done].
  intros fs repo_root cve_id source Hprefix.
  pose proof (find_cve_file_bad_prefix fs repo_root cve_id source Hprefix) as E.
  split; [done|]. split.
  - rewrite E. split; [done|]. split; [apply list_elem_of_here|].
    by repeat constructor.
  - destruct (cve_shape (Str.upper cve_id)) eqn:Hshape; [|done].
    apply cve_shape_prefix in Hshape. congruence.
Qed.

Lemma find_cve_file_rejects_bad_prefix_witness :
  find_cve_file (Tree.file_system empty_repo) "/repo" "not-a-cve" None
  = Io [Print invalid_format] (Val None).
Proof.
  apply (proj1 find_cve_file_rejects_bad_prefix
           (Tree.file_system empty_repo) "/repo" "not-a-cve" None).
  reflexivity.
Defined.

(** C1, as the specification words it, fails: [CVE-x] has not the shape
    [CVE-<year>-<sequence>], and the resolver searches for it. *)
Lemma find_cve_file_searches_malformed_id :
  cve_shape (Str.upper "CVE-x") = false
  ∧ ¬ rejected_unsearched
        (find_cve_file (Tree.file_system empty_repo) "/repo" "CVE-x" None).
Proof.
  split; [done|]. intros (_ & _ & H).
  vm_compute in H. by apply Forall_cons in H as [? _].
Qed.

(** C10.  The identifier is put in upper case before it is tested and
    searched for, so a query and its upper-case form run alike: the same
    calls, the same lines printed and the same location. *)
Theorem find_cve_file_case_insensitive :
  (∀ fs repo_root cve_id source,
     find_cve_file fs repo_root cve_id source
     = find_cve_file fs repo_root (Str.upper cve_id) source)
  ∧ (∀ fs repo_root source,
       find_cve_file fs repo_root "cve-2022-1664" source
       = find_cve_file fs repo_root "CVE-2022-1664" source).
Proof.
  split; [|done].
  intros fs repo_root cve_id source. unfold find_cve_file. by rewrite upper_idemp.
Qed.

Lemma probe_direct_found fs repo_root name year cve_id :
  fs_exists fs (Path.join repo_root [name; year; cve_id +:+ ".json"]) = true →
  probe_direct fs repo_root name year cve_id
  = Io [Exists (Path.join repo_root [name; year; cve_id +:+ ".json"])]
       (Val (Some (Path.join repo_root [name; year; cve_id +:+ ".json"]))).
Proof.
  intros H. unfold probe_direct, path_exists. by rewrite H.
Qed.

Lemma probe_direct_missing fs repo_root name year cve_id :
  fs_exists fs (Path.join repo_root [name; year; cve_id +:+ ".json"]) = false →
  probe_direct fs repo_root name year cve_id
  = Io [Exists (Path.join repo_root [name; year; cve_id +:+ ".json"])] (Val None).
Proof.
  intros H. unfold probe_direct, path_exists. by rewrite H.
Qed.



(** C5.  With a source filter the resolver probes the roots of that name and
    no others, and there is at most one; a query for CVE-2099-0001 in [nvd]
    that finds no file has made one existence test, on the NVD path.  A
    filter that names no known source gives nothing, raises nothing and
    makes no call to the file system. *)
Theorem find_cve_file_source_filter :
  (∀ fs repo_root cve_id source,
     Str.startswith "CVE-" (Str.upper cve_id) = true →
     find_cve_file fs repo_root cve_id (Some source)
     = first_match fs repo_root (year_of (Str.upper cve_id)) (Str.upper cve_id)
         (List.filter (λ r, bool_decide (r.1 = Str.lower source)) source_roots))
  ∧ (∀ source,
       (List.length (List.filter (λ r : string * matcher, bool_decide (r.1 = Str.lower source))
                       source_roots) ≤ 1)%nat)
  ∧ (∀ fs repo_root,
       let path := Path.join repo_root ["nvd"; "2099"; "CVE-2099-0001.json"] in
       fs_exists fs path = false →
       find_cve_file fs repo_root "CVE-2099-0001" (Some "nvd") = Io [Exists path] (Val None))
  ∧ (∀ fs repo_root cve_id source,
       Str.lower source ∉ source_roots.*1 →
       result (find_cve_file fs repo_root cve_id (Some source)) = Val None
       ∧ Forall (λ e, touched e = None) (log (find_cve_file fs repo_root cve_id (Some source)))).
Proof.
  split; [exact find_cve_file_filtered|]. split; [|split].
  - intros source. generalize (Str.lower source) as n. intros n.
    destruct (decide (n ∈ source_roots.*1)) as [Hin|Hout].
    + cbn in Hin.
      repeat (apply elem_of_cons in Hin as [->|Hin]; [vm_compute; lia|]).
      by apply elem_of_nil in Hin.
    + rewrite (filter_unknown_source _ Hout). cbn. lia.
  - intros fs repo_root path Hmissing.
    rewrite (find_cve_file_filtered fs repo_root "CVE-2099-0001" "nvd" eq_refl).
    change (List.filter _ source_roots) with [("nvd", DirectKeyed)].
    unfold first_match. rewrite for_each_one.
    exact (probe_direct_missing fs repo_root "nvd" "2099" "CVE-2099-0001" Hmissing).
  - intros fs repo_root cve_id source Hunknown.
    destruct (Str.startswith "CVE-" (Str.upper cve_id)) eqn:Hprefix.
    + rewrite (find_cve_file_filtered _ _ _ _ Hprefix), (filter_unknown_source _ Hunknown).
      by split; [|constructor].
    + rewrite (find_cve_file_bad_prefix _ _ _ _ Hprefix).
      by split; [|repeat constructor].
Qed.

Lemma find_cve_file_source_filter_witness :
  find_cve_file (Tree.file_system empty_repo) "/repo" "CVE-2099-0001" (Some "nvd")
  = Io [Exists "/repo/nvd/2099/CVE-2099-0001.json"] (Val None).
Proof.
  apply (proj1 (proj2 (proj2 find_cve_file_source_filter))
           (Tree.file_system empty_repo) "/repo").
  reflexivity.
Defined.

(** ** Advisory files *)

Lemma eq_str_true v s : eq_str v s = true ↔ v = JStr s.
Proof.
  destruct v; cbn; try (split; [done | by intros [=]]).
  rewrite bool_decide_eq_true. split; [by intros -> | by intros [= ->]].
Qed.

(** The loop over an identifier list whose entries are all objects ends
    without an exception, and it finds a match exactly when one entry names
    the CVE. *)
Lemma identifiers_match_spec cve_id identifiers :
  Forall (λ i, is_object i = true) identifiers →
  ∃ b, identifiers_match cve_id identifiers = Val b
       ∧ (b = true ↔ ∃ i, i ∈ identifiers ∧ names_cve cve_id i).
Proof.
  induction 1 as [|i rest Hi _ (b & IH & Hb)].
  - exists false. split; [done|]. split; [done|]. intros (i & Hin & _).
    by apply elem_of_nil in Hin.
  - destruct i as [| | | | |items]; try done. cbn [identifiers_match].
    unfold names_cve. cbn [py_get mbind outcome_bind].
    destruct (eq_str (default JNull (dict_get "Type" items)) "CVE") eqn:Hty;
      cbn [mbind outcome_bind mret outcome_ret].
    + destruct (eq_str (default JNull (dict_get "Value" items)) cve_id) eqn:Hval.
      * exists true. split; [done|]. split; [|done]. intros _.
        exists (JObj items). split; [apply list_elem_of_here|].
        apply eq_str_true in Hty, Hval. cbn. by rewrite Hty, Hval.
      * exists b. split; [done|]. rewrite Hb. split.
        -- intros (j & Hj & Hn). exists j. split; [by apply list_elem_of_further | done].
        -- intros (j & Hj & Hn). apply elem_of_cons in Hj as [->|Hj]; [|by eauto].
           destruct Hn as [_ [= Hn]]. apply eq_str_true in Hn. congruence.
    + exists b. split; [done|]. rewrite Hb. split.
      * intros (j & Hj & Hn). exists j. split; [by apply list_elem_of_further | done].
      * intros (j & Hj & Hn). apply elem_of_cons in Hj as [->|Hj]; [|by eauto].
        destruct Hn as [[= Hn] _]. apply eq_str_true in Hn. congruence.
Qed.

Lemma advisory_matches_spec cve_id items fields identifiers :
  dict_get "Advisory" items = Some (JObj fields) →
  dict_get "Identifiers" fields = Some (JArr identifiers) →
  advisory_matches cve_id (JObj items) = identifiers_match cve_id identifiers.
Proof.
  intros Hadv Hids. unfold advisory_matches. cbn. rewrite Hadv. cbn. rewrite Hids. cbn.
  by destruct (identifiers_match _ _).
Qed.

(** The advisory block on a root that holds one ecosystem with one file. *)
Lemma probe_ghsa_one_file fs repo_root cve_id ecosystem_dir json_file data :
  let ghsa_base := Path.join repo_root ["ghsa"] in
  let ecosystem_path := Path.join ghsa_base [ecosystem_dir] in
  let pattern := Path.join ecosystem_path ["**/*.json"] in
  fs_exists fs ghsa_base = true →
  fs_listdir fs ghsa_base = Val [ecosystem_dir] →
  fs_isdir fs ecosystem_path = true →
  fs_glob fs pattern = [json_file] →
  fs_load fs json_file = Loaded data →
  advisory_matches cve_id data = Val true →
  probe_ghsa fs repo_root cve_id
  = Io [Exists ghsa_base; ListDir ghsa_base; IsDir ecosystem_path; Glob pattern;
        Open json_file] (Val (Some json_file)).
Proof.
  intros ghsa_base ecosystem_path pattern Hex Hls Hdir Hglob Hload Hmatch.
  unfold probe_ghsa, path_exists, listdir, isdir, glob, with_json.
  fold ghsa_base. rewrite Hex, Hls. run_io.
  fold ecosystem_path. rewrite Hdir. run_io.
  fold pattern. rewrite Hglob. run_io.
  rewrite Hload, Hmatch. reflexivity.
Qed.



(** ** The record loader *)

Lemma source_label_by_priority file_path :
  source_label file_path = label_by_priority file_path.
Proof.
  unfold source_label, label_by_priority, known_sources, alpine_label.
  cbn [List.find fst snd].
  repeat (destruct (Str.contains _ file_path); [done|]). done.
Qed.

(** C9.  The label written under [_source] is that of the first name, in the
    order nvd, ghsa, alpine, debian, ubuntu, amazon, oracle, photon, redhat,
    suse, that occurs in the path of the file; nvd wins over every other
    name, and a path in which no name occurs is labelled [Unknown Source].
    When the file found holds a JSON object, the loader returns that object
    with the label set. *)
Theorem get_cve_info_provenance :
  (∀ file_path, source_label file_path = label_by_priority file_path)
  ∧ (∀ file_path,
       Str.contains "nvd" file_path = true →
       source_label file_path = "NVD (National Vulnerability Database)")
  ∧ (∀ file_path,
       Forall (λ src : string * (string → string), Str.contains src.1 file_path = false)
         known_sources →
       source_label file_path = unknown_source)
  ∧ (∀ fs repo_root cve_id source file_path items,
       result (find_cve_file fs repo_root cve_id source) = Val (Some file_path) →
       file_path ≠ "" →
       fs_load fs file_path = Loaded (JObj items) →
       result (get_cve_info fs repo_root cve_id source)
       = Val (Some (JObj (dict_set "_source" (JStr (label_by_priority file_path)) items)))).
Proof.
  split; [exact source_label_by_priority|]. split; [|split].
  - intros file_path H. unfold source_label. by rewrite H.
  - intros file_path H. rewrite source_label_by_priority. unfold label_by_priority.
    induction H as [|src rest Hsrc _ IH]; [done|]. cbn. by rewrite Hsrc.
  - intros fs repo_root cve_id source file_path items Hfound Hpath Hload.
    unfold get_cve_info.
    destruct (find_cve_file fs repo_root cve_id source) as [l r]. cbn in Hfound. subst r.
    run_io. cbn [truthy]. rewrite decide_False by done. run_io.
    rewrite Hload. cbn [py_setitem]. run_io.
    by rewrite source_label_by_priority.
Qed.

Lemma get_cve_info_provenance_witness :
  result (get_cve_info (Tree.file_system nvd_only) "/repo" "CVE-2022-1664" None)
  = Val (Some (JObj [("id", JStr "CVE-2022-1664");
                     ("_source", JStr "NVD (National Vulnerability Database)")])).
Proof.
  apply (proj2 (proj2 (proj2 get_cve_info_provenance))
           (Tree.file_system nvd_only) "/repo" "CVE-2022-1664" None
           "/repo/nvd/2022/CVE-2022-1664.json" [("id", JStr "CVE-2022-1664")]).
  - reflexivity.
  - discriminate.
  - reflexivity.
Defined.

(** ** The idempotent writer *)

Section WriterFacts.

Variable dumps : entry → string.
Variable base_dir : string.

Abbreviation step := (process_entry dumps base_dir).
Abbreviation path_of := (file_path_of base_dir).

(** The four ways a turn of the loop can go. *)
Lemma step_no_path st e : path_of e = None → step st e = st.
Proof.
  unfold file_path_of, process_entry.
  by destruct (entry_paths base_dir e) as [[dir_path file_path]|].
Qed.

Lemma step_seen st e p :
  path_of e = Some p → p ∈ created_files st → step st e = st.
Proof.
  unfold file_path_of, process_entry.
  destruct (entry_paths base_dir e) as [[dir_path file_path]|]; [|done].
  intros [= ->] Hseen. by rewrite decide_True.
Qed.

Lemma step_unchanged st e p :
  path_of e = Some p →
  p ∉ created_files st →
  disk st !! p = Some (Readable (dumps e)) →
  step st e = {| disk := disk st;
                 created_files := {[p]} ∪ created_files st;
                 file_count := file_count st;
                 unchanged_count := S (unchanged_count st);
                 written := written st |}.
Proof.
  unfold file_path_of, process_entry.
  destruct (entry_paths base_dir e) as [[dir_path file_path]|]; [|done].
  intros [= ->] Hnew Hdisk. rewrite decide_False by done.
  rewrite Hdisk. by rewrite decide_True.
Qed.

Lemma step_write st e p :
  path_of e = Some p →
  p ∉ created_files st →
  disk st !! p ≠ Some (Readable (dumps e)) →
  step st e = {| disk := <[p := Readable (dumps e)]> (disk st);
                 created_files := {[p]} ∪ created_files st;
                 file_count := S (file_count st);
                 unchanged_count := unchanged_count st;
                 written := p :: written st |}.
Proof.
  unfold file_path_of, process_entry.
  destruct (entry_paths base_dir e) as [[dir_path file_path]|]; [|done].
  intros [= ->] Hnew Hdisk. rewrite decide_False by done.
  destruct (disk st !! p) as [[content|]|]; try done.
  rewrite decide_False; [done|]. by intros ->.
Qed.

(** Case analysis on a turn, for the proofs below. *)
Lemma step_cases st e :
  (path_of e = None ∧ step st e = st)
  ∨ (∃ p, path_of e = Some p ∧ p ∈ created_files st ∧ step st e = st)
  ∨ (∃ p, path_of e = Some p ∧ (p ∉ created_files st)
          ∧ disk st !! p = Some (Readable (dumps e))
          ∧ step st e = {| disk := disk st;
                           created_files := {[p]} ∪ created_files st;
                           file_count := file_count st;
                           unchanged_count := S (unchanged_count st);
                           written := written st |})
  ∨ (∃ p, path_of e = Some p ∧ (p ∉ created_files st)
          ∧ disk st !! p ≠ Some (Readable (dumps e))
          ∧ step st e = {| disk := <[p := Readable (dumps e)]> (disk st);
                           created_files := {[p]} ∪ created_files st;
                           file_count := S (file_count st);
                           unchanged_count := unchanged_count st;
                           written := p :: written st |}).
Proof.
  destruct (path_of e) as [p|] eqn:Hp; [|left; split; [done | by apply step_no_path]].
  right. destruct (decide (p ∈ created_files st)) as [Hseen|Hnew].
  { left. exists p. by rewrite (step_seen _ _ _ Hp Hseen). }
  right. destruct (decide (disk st !! p = Some (Readable (dumps e)))) as [Hsame|Hdiff].
  - left. exists p. by rewrite (step_unchanged _ _ _ Hp Hnew Hsame).
  - right. exists p. by rewrite (step_write _ _ _ Hp Hnew Hdiff).
Qed.

End WriterFacts.

Section WriterRuns.

Variable dumps : entry → string.
Variable base_dir : string.

Abbreviation step' := (process_entry dumps base_dir).
Abbreviation path_of' := (file_path_of base_dir).
Abbreviation run := (foldl (process_entry dumps base_dir)).

(** The paths handled so far only grow. *)
Lemma created_step st e p :
  p ∈ created_files (step' st e)
  ↔ p ∈ created_files st ∨ path_of' e = Some p.
Proof.
  destruct (step_cases dumps base_dir st e)
    as [[Hp ->]|[(q & Hp & Hq & ->)|[(q & Hp & Hq & _ & ->)|(q & Hp & Hq & _ & ->)]]];
    rewrite Hp; cbn; rewrite ?elem_of_union, ?elem_of_singleton.
  - split; [by left | by intros [|]].
  - split; [by left | by intros [|[= <-]]].
  - split; [intros [->|]; [by right | by left] | intros [|[= <-]]; [by right | by left]].
  - split; [intros [->|]; [by right | by left] | intros [|[= <-]]; [by right | by left]].
Qed.

Lemma created_run data st p :
  p ∈ created_files (run st data)
  ↔ p ∈ created_files st ∨ ∃ e, e ∈ data ∧ path_of' e = Some p.
Proof.
  revert st. induction data as [|e data IH]; intros st; cbn.
  - split; [by left|]. intros [|(e & He & _)]; [done|]. by apply elem_of_nil in He.
  - rewrite IH, created_step. split.
    + intros [[|]|(e' & He' & Hp)]; [by left | right; exists e | right; exists e'];
        (split; [|done]); [apply list_elem_of_here | by apply list_elem_of_further].
    + intros [|(e' & He' & Hp)]; [by left; left|].
      apply elem_of_cons in He' as [->|He']; [by left; right | right; by exists e'].
Qed.

(** A file whose path has been handled is not touched again in the batch. *)
Lemma disk_step_seen st e p :
  p ∈ created_files st → disk (step' st e) !! p = disk st !! p.
Proof.
  intros Hseen.
  destruct (step_cases dumps base_dir st e)
    as [[Hp ->]|[(q & Hp & Hq & ->)|[(q & Hp & Hq & _ & ->)|(q & Hp & Hq & _ & ->)]]];
    try done.
  cbn. apply lookup_insert_ne. by intros ->.
Qed.

Lemma disk_run_seen data st p :
  p ∈ created_files st → disk (run st data) !! p = disk st !! p.
Proof.
  revert st. induction data as [|e data IH]; intros st Hseen; [done|]. cbn.
  rewrite IH by (apply created_step; by left). by apply disk_step_seen.
Qed.

(** After a turn for a row with a path, the file at that path holds the
    serialisation of the row. *)
Lemma disk_step_new st e p :
  path_of' e = Some p → p ∉ created_files st →
  disk (step' st e) !! p = Some (Readable (dumps e)).
Proof.
  intros Hp Hnew.
  destruct (step_cases dumps base_dir st e)
    as [[Hp' ->]|[(q & Hp' & Hq & ->)|[(q & Hp' & Hq & Hsame & ->)|(q & Hp' & Hq & _ & ->)]]];
    simplify_eq; [done..|]. cbn. apply lookup_insert_eq.
Qed.

(** At the end of a batch the file of every path of the batch that was not
    handled before holds the serialisation of the first row of that path. *)
Lemma disk_run_first data st p e0 :
  p ∉ created_files st →
  first_for base_dir p data = Some e0 →
  disk (run st data) !! p = Some (Readable (dumps e0)).
Proof.
  revert st. induction data as [|e data IH]; intros st Hnew; [done|].
  unfold first_for. cbn. case_bool_decide as Hpath.
  - intros [= <-]. rewrite disk_run_seen by (apply created_step; by right).
    by apply disk_step_new.
  - intros Hfirst. apply IH; [|done].
    rewrite created_step. by intros [|].
Qed.

(** A batch run on a store in which every path of the batch holds the
    serialisation of its first row writes nothing. *)
Lemma run_settled data st :
  (∀ p e0, p ∉ created_files st → first_for base_dir p data = Some e0 →
           disk st !! p = Some (Readable (dumps e0))) →
  disk (run st data) = disk st
  ∧ file_count (run st data) = file_count st
  ∧ written (run st data) = written st.
Proof.
  revert st. induction data as [|e data IH]; intros st Hsettled; [done|]. cbn.
  destruct (step_cases dumps base_dir st e)
    as [[Hp E]|[(q & Hp & Hq & E)|[(q & Hp & Hq & Hsame & E)|(q & Hp & Hq & Hdiff & _)]]].
  - rewrite E. apply IH. intros p e0 Hnew Hfirst. apply Hsettled; [done|].
    unfold first_for in *. cbn. by rewrite Hp, bool_decide_eq_false_2.
  - rewrite E. apply IH. intros p e0 Hnew Hfirst. apply Hsettled; [done|].
    unfold first_for in *. cbn. rewrite Hp, bool_decide_eq_false_2; [done|].
    intros [= ->]. done.
  - rewrite E.
    destruct (IH {| disk := disk st; created_files := {[q]} ∪ created_files st;
                    file_count := file_count st;
                    unchanged_count := S (unchanged_count st);
                    written := written st |}) as (Hd & Hc & Hw); [|done].
    cbn. intros p e0 Hnew Hfirst.
    rewrite elem_of_union, elem_of_singleton in Hnew.
    apply Hsettled; [by intros ?; apply Hnew; right|].
    unfold first_for in *. cbn. rewrite Hp, bool_decide_eq_false_2; [done|].
    intros [= ->]. apply Hnew. by left.
  - exfalso. apply Hdiff, Hsettled; [done|]. unfold first_for. cbn.
    by rewrite Hp, bool_decide_eq_true_2.
Qed.

End WriterRuns.

Section WriterAccounts.

Variable dumps : entry → string.
Variable base_dir : string.

Lemma accounted_start d : accounted (start d).
Proof.
  split; [constructor|]. split; [|done].
  intros p Hp. by apply elem_of_nil in Hp.
Qed.

Lemma size_new (p : string) (X : gset string) : p ∉ X → size ({[p]} ∪ X) = S (size X).
Proof.
  intros Hnew. rewrite size_union by (by apply disjoint_singleton_l).
  by rewrite size_singleton.
Qed.

Lemma accounted_step st e :
  accounted st → accounted (process_entry dumps base_dir st e).
Proof.
  intros (Hnodup & Hsub & Hlen & Hsize).
  destruct (step_cases dumps base_dir st e)
    as [[Hp ->]|[(q & Hp & Hq & ->)|[(q & Hp & Hq & _ & ->)|(q & Hp & Hq & _ & ->)]]];
    [done | done | |]; unfold accounted; cbn.
  - split; [done|]. split; [|split; [done|]].
    + intros p Hw. apply elem_of_union. right. by apply Hsub.
    + rewrite (size_new _ _ Hq). lia.
  - split; [|split; [|split]].
    + constructor; [|done]. intros Hw. by apply Hq, Hsub.
    + intros p Hw. apply elem_of_union. apply elem_of_cons in Hw as [->|Hw].
      * left. by apply elem_of_singleton.
      * right. by apply Hsub.
    + by rewrite Hlen.
    + rewrite (size_new _ _ Hq). lia.
Qed.

Lemma accounted_run data st :
  accounted st → accounted (foldl (process_entry dumps base_dir) st data).
Proof.
  revert st. induction data as [|e data IH]; intros st Hst; [done|].
  cbn. by apply IH, accounted_step.
Qed.

(** A row whose path has been handled leaves the state as it is, so it can
    be taken out of the batch. *)
Lemma run_skips_later before e1 between e2 st p :
  file_path_of base_dir e1 = Some p →
  file_path_of base_dir e2 = Some p →
  process_entry dumps base_dir
    (foldl (process_entry dumps base_dir) st (before ++ e1 :: between)) e2
  = foldl (process_entry dumps base_dir) st (before ++ e1 :: between).
Proof.
  intros Hp1 Hp2. apply (step_seen _ _ _ _ p Hp2).
  apply created_run. right. exists e1. split; [|done].
  apply elem_of_app. right. apply list_elem_of_here.
Qed.

End WriterAccounts.





(** * Further properties of the code *)

(** ** Words of an OS name *)

Lemma all_app f s t : Str.all f (s +:+ t) = Str.all f s && Str.all f t.
Proof.
  unfold Str.all. induction s as [|c s IH]; [done|].
  change (f c && forallb f (list_ascii_of_string (s +:+ t))
          = f c && forallb f (list_ascii_of_string s) && forallb f (list_ascii_of_string t)).
  by rewrite IH, andb_assoc.
Qed.

(** Every word [split] gives is non-empty and free of white space. *)
Lemma split_ws_words tok s w :
  no_space tok = true →
  w ∈ Str.split_ws tok s → w ≠ "" ∧ no_space w = true.
Proof.
  revert tok. induction s as [|c s IH]; intros tok Htok; cbn.
  - destruct (decide (tok = "")); intros Hw; [by apply elem_of_nil in Hw|].
    apply list_elem_of_singleton in Hw as ->. done.
  - destruct (Str.is_space c) eqn:Hc.
    + destruct (decide (tok = "")); intros Hw; [by apply (IH "")|].
      apply elem_of_cons in Hw as [->|Hw]; [done | by apply (IH "")].
    + apply IH. unfold no_space, Str.snoc. rewrite all_app. fold (no_space tok).
      rewrite Htok. unfold Str.all. cbn. by rewrite Hc.
Qed.

Lemma split_words s w : w ∈ Str.split s → w ≠ "" ∧ no_space w = true.
Proof. by apply split_ws_words. Qed.

(** X1.  Words that a name lacks give empty fields, in every case but the
    two on which the normaliser raises: a single word is a distribution with
    no version and no variant, two words are a distribution and a version
    ([Oracle Linux] alone is the distribution [OracleLinux]), and the two
    special forms with one more word have an empty variant. *)
Theorem parse_os_name_missing_words :
  (∀ os_name w, Str.split os_name = [w] → parse_os_name os_name = Val (w, "", ""))
  ∧ (∀ os_name w0 w1,
       Str.split os_name = [w0; w1] →
       ¬ (w0 = "CentOS" ∧ w1 = "Stream") →
       parse_os_name os_name
       = Val (if decide (w0 = "Oracle" ∧ w1 = "Linux")
              then ("OracleLinux", "", "") else (w0, w1, "")))
  ∧ (∀ os_name v,
       Str.split os_name = ["Oracle"; "Linux"; v] →
       parse_os_name os_name = Val ("OracleLinux", v, ""))
  ∧ (∀ os_name v,
       Str.split os_name = ["CentOS"; "Stream"; v] →
       parse_os_name os_name = Val ("CentOS", "Stream" +:+ v, "")).
Proof.
  split; [|split; [|split]].
  - intros os_name w H. rewrite parse_os_name_parts, H. cbn.
    rewrite !decide_False by (by intros [_ [=]]). done.
  - intros os_name w0 w1 H Hcentos. rewrite parse_os_name_parts, H. cbn.
    rewrite decide_False by (intros [-> [= ->]]; auto).
    destruct (decide (w0 = "Oracle" ∧ w1 = "Linux")) as [[-> ->]|Hno].
    + by rewrite decide_True.
    + rewrite decide_False; [done|]. intros [-> [= ->]]. auto.
  - intros os_name v H. by rewrite parse_os_name_parts, H.
  - intros os_name v H. by rewrite parse_os_name_parts, H.
Qed.

Lemma parse_os_name_missing_words_witness :
  parse_os_name "Ubuntu" = Val ("Ubuntu", "", "")
  ∧ parse_os_name "Ubuntu 16.04" = Val ("Ubuntu", "16.04", "").
Proof.
  split.
  - apply (proj1 parse_os_name_missing_words "Ubuntu" "Ubuntu"). reflexivity.
  - apply (proj1 (proj2 parse_os_name_missing_words) "Ubuntu 16.04" "Ubuntu" "16.04").
    + reflexivity.
    + intros [H _]. discriminate H.
Defined.

(** X2.  Words beyond those a branch reads are dropped: of a name of four
    words or more, only the first three count in the general case, and only
    the first four in the two special cases. *)
Theorem parse_os_name_extra_words :
  ∀ os_name p0 p1 p2 p3 rest,
    Str.split os_name = p0 :: p1 :: p2 :: p3 :: rest →
    parse_os_name os_name
    = Val (if decide (p0 = "CentOS" ∧ p1 = "Stream") then ("CentOS", "Stream" +:+ p2, p3)
           else if decide (p0 = "Oracle" ∧ p1 = "Linux") then ("OracleLinux", p2, p3)
           else (p0, p1, p2)).
Proof.
  intros os_name p0 p1 p2 p3 rest H. rewrite parse_os_name_parts, H. cbn.
  destruct (decide (p0 = "CentOS" ∧ p1 = "Stream")) as [[-> ->]|Hc].
  { by rewrite decide_True. }
  rewrite decide_False by (intros [-> [= ->]]; auto).
  destruct (decide (p0 = "Oracle" ∧ p1 = "Linux")) as [[-> ->]|Ho].
  { by rewrite decide_True. }
  rewrite decide_False; [done|]. intros [-> [= ->]]. auto.
Qed.

Lemma parse_os_name_extra_words_witness :
  parse_os_name "AlmaLinux 9.2 ESU extended support"
  = Val ("AlmaLinux", "9.2", "ESU").
Proof.
  exact (parse_os_name_extra_words "AlmaLinux 9.2 ESU extended support"
           "AlmaLinux" "9.2" "ESU" "extended" ["support"] eq_refl).
Defined.

(** X3.  Whatever triplet the normaliser returns, its distribution is not
    empty and none of its three fields holds white space. *)
Theorem parse_os_name_fields_clean :
  ∀ os_name distro version variant,
    parse_os_name os_name = Val (distro, version, variant) →
    distro ≠ ""
    ∧ no_space distro = true ∧ no_space version = true ∧ no_space variant = true.
Proof.
  intros os_name distro version variant. rewrite parse_os_name_parts.
  pose proof (split_words os_name) as Hwords.
  destruct (Str.split os_name) as [|p0 rest]; [done|].
  assert (∀ i w, rest !! i = Some w → no_space w = true) as Hrest.
  { intros i w Hi. apply Hwords. apply list_elem_of_further.
    by apply list_elem_of_lookup_2 in Hi. }
  assert (∀ i, no_space (default "" (rest !! i)) = true) as Hfield.
  { intros i. destruct (rest !! i) eqn:Hi; [by apply (Hrest i)|done]. }
  destruct (Hwords p0 (list_elem_of_here _ _)) as [Hne Hp0].
  destruct (decide (p0 = "CentOS" ∧ rest !! 0 = Some "Stream")) as [_|_].
  - destruct (rest !! 1) as [p2|] eqn:H2; [|done]. intros [= <- <- <-].
    split; [done|]. split; [done|]. split; [|done].
    unfold no_space. rewrite all_app. apply andb_true_iff. split; [done|].
    by apply (Hrest 1).
  - destruct (decide (p0 = "Oracle" ∧ rest !! 0 = Some "Linux")) as [_|_];
      intros [= <- <- <-]; by repeat split.
Qed.

Lemma parse_os_name_fields_clean_witness :
  "CentOS" ≠ "" ∧ no_space "CentOS" = true ∧ no_space "Stream8" = true
  ∧ no_space "ELS" = true.
Proof.
  exact (parse_os_name_fields_clean "  CentOS   Stream 8	ELS " "CentOS" "Stream8" "ELS"
           eq_refl).
Defined.

(** ** Rows and batches of the writer *)

Lemma file_path_of_usable base_dir e :
  is_Some (file_path_of base_dir e) ↔ usable e.
Proof.
  unfold usable, file_path_of, entry_paths, entry_get.
  destruct (dict_get "CVE" e) as [cve|]; cbn -[parse_os_name];
    [|split; [by intros [? [=]] | by intros [[? [=]] _]]].
  destruct (dict_get "OS name" e) as [os_name|]; cbn -[parse_os_name];
    [|split; [by intros [? [=]] | by intros (_ & (? & [=] & _) & _)]].
  destruct (dict_get "Last updated" e) as [[last_updated|]|]; cbn -[parse_os_name];
    [| split; [by intros [? [=]] | by intros (_ & _ & (? & [=]))]
     | split; [by intros [? [=]] | by intros (_ & _ & (? & [=]))]].
  destruct os_name as [os_name|]; cbn -[parse_os_name];
    [|split; [by intros [? [=]] | by intros (_ & (? & [=] & _) & _)]].
  destruct (parse_os_name os_name) as [[[distro version] variant]|err] eqn:Hparse; cbn -[parse_os_name].
  - split; [|by eauto]. intros _. split; [by eauto|]. split; [|by eauto].
    exists os_name. by rewrite Hparse.
  - split; [by intros [? [=]]|]. intros (_ & (s & [= <-] & Hval) & _).
    by rewrite Hparse in Hval.
Qed.

Lemma file_path_of_unusable base_dir e :
  file_path_of base_dir e = None ↔ ¬ usable e.
Proof.
  rewrite <- (file_path_of_usable base_dir). rewrite <- eq_None_not_Some. done.
Qed.

Lemma disk_run_other dumps base_dir data st p :
  (∀ e, e ∈ data → file_path_of base_dir e ≠ Some p) →
  disk (foldl (process_entry dumps base_dir) st data) !! p = disk st !! p.
Proof.
  revert st. induction data as [|e data IH]; intros st Hother; [done|]. cbn.
  rewrite IH by (intros e' He'; apply Hother; by apply list_elem_of_further).
  pose proof (Hother e (list_elem_of_here _ _)) as He.
  destruct (step_cases dumps base_dir st e)
    as [[Hp ->]|[(q & Hp & Hq & ->)|[(q & Hp & Hq & _ & ->)|(q & Hp & Hq & _ & ->)]]];
    try done.
  cbn. apply lookup_insert_ne. intros ->. by apply He.
Qed.

Lemma first_for_exists base_dir data e p :
  e ∈ data → file_path_of base_dir e = Some p →
  ∃ e0, first_for base_dir p data = Some e0 ∧ e0 ∈ data
        ∧ file_path_of base_dir e0 = Some p.
Proof.
  intros He Hp. unfold first_for.
  induction data as [|e' data IH]; [by apply elem_of_nil in He|]. cbn.
  case_bool_decide as Hp'.
  - exists e'. split; [done|]. split; [apply list_elem_of_here | done].
  - apply elem_of_cons in He as [->|He]; [done|].
    destruct (IH He) as (e0 & Hfirst & Hin & Hp0). exists e0.
    split; [done|]. split; [by apply list_elem_of_further | done].
Qed.

(** X4.  A row has a canonical path exactly when it has its three fields,
    with text for the OS name and the date, and an OS name the normaliser
    accepts.  Any other row is passed over: the batch ends as if the row had
    not been in it. *)
Theorem create_json_files_skips_unusable :
  (∀ base_dir e, file_path_of base_dir e = None ↔ ¬ usable e)
  ∧ (∀ dumps base_dir d before e after,
       ¬ usable e →
       create_json_files dumps (before ++ e :: after) base_dir d
       = create_json_files dumps (before ++ after) base_dir d).
Proof.
  split; [exact file_path_of_unusable|].
  intros dumps base_dir d before e after Hbad. unfold create_json_files.
  rewrite !foldl_app. cbn [foldl].
  by rewrite step_no_path by (by apply file_path_of_unusable).
Qed.

Lemma create_json_files_skips_unusable_witness :
  create_json_files dumps_lines
    [row "CVE-2025-0001" "AlmaLinux 9.2 ESU" "2025-01-02";
     [("CVE", Text "CVE-2025-0002"); ("OS name", Text "AlmaLinux 9.2 ESU")];
     row "CVE-2025-0003" "CentOS Stream" "2025-01-02"] "./" ∅
  = create_json_files dumps_lines
      [row "CVE-2025-0001" "AlmaLinux 9.2 ESU" "2025-01-02";
       row "CVE-2025-0003" "CentOS Stream" "2025-01-02"] "./" ∅.
Proof.
  apply (proj2 create_json_files_skips_unusable dumps_lines "./" ∅
           [row "CVE-2025-0001" "AlmaLinux 9.2 ESU" "2025-01-02"]
           [("CVE", Text "CVE-2025-0002"); ("OS name", Text "AlmaLinux 9.2 ESU")]
           [row "CVE-2025-0003" "CentOS Stream" "2025-01-02"]).
  intros (_ & _ & (last_updated & H)). discriminate H.
Defined.





Lemma run_fresh dumps base_dir data st :
  (∀ e p, e ∈ data → file_path_of base_dir e = Some p →
          p ∉ created_files st → disk st !! p = None) →
  unchanged_count (foldl (process_entry dumps base_dir) st data) = unchanged_count st.
Proof.
  revert st. induction data as [|e data IH]; intros st Hfresh; [done|]. cbn.
  assert (∀ e' p, e' ∈ data → file_path_of base_dir e' = Some p →
                  p ∉ created_files st → disk st !! p = None) as Hrest.
  { intros e' p He'. apply Hfresh. by apply list_elem_of_further. }
  destruct (step_cases dumps base_dir st e)
    as [[Hp ->]|[(q & Hp & Hq & ->)|[(q & Hp & Hq & Hsame & _)|(q & Hp & Hq & _ & ->)]]].
  - by apply IH.
  - by apply IH.
  - rewrite (Hfresh e q (list_elem_of_here _ _) Hp Hq) in Hsame. done.
  - rewrite IH; [done|]. cbn. intros e' p He' Hp' Hnew.
    rewrite elem_of_union, elem_of_singleton in Hnew.
    rewrite lookup_insert_ne by (intros ->; apply Hnew; by left).
    apply (Hrest e' p He' Hp'). intros ?. apply Hnew. by right.
Qed.




(** ** More on the source resolver *)

Lemma lower_char_idemp c : Str.lower_char (Str.lower_char c) = Str.lower_char c.
Proof. by destruct c as [[] [] [] [] [] [] [] []]. Qed.

Lemma lower_idemp s : Str.lower (Str.lower s) = Str.lower s.
Proof.
  induction s as [|c s IH]; [done|].
  cbn. by rewrite lower_char_idemp, IH.
Qed.

(** X9.  The name of the source is read without regard to case: a filter and
    its lower-case form give the same run. *)
Theorem find_cve_file_source_case_insensitive :
  ∀ fs repo_root cve_id source,
    find_cve_file fs repo_root cve_id (Some source)
    = find_cve_file fs repo_root cve_id (Some (Str.lower source)).
Proof.
  intros fs repo_root cve_id source.
  destruct (Str.startswith "CVE-" (Str.upper cve_id)) eqn:Hprefix.
  - rewrite !(find_cve_file_filtered _ _ _ _ Hprefix). by rewrite lower_idemp.
  - by rewrite !(find_cve_file_bad_prefix _ _ _ _ Hprefix).
Qed.

Lemma find_cve_file_one_root fs repo_root cve_id source root :
  Str.startswith "CVE-" (Str.upper cve_id) = true →
  List.filter (λ r : string * matcher, bool_decide (r.1 = Str.lower source)) source_roots
  = [root] →
  find_cve_file fs repo_root cve_id (Some source)
  = probe fs repo_root (year_of (Str.upper cve_id)) (Str.upper cve_id) root.
Proof.
  intros Hprefix Hroot. rewrite (find_cve_file_filtered _ _ _ _ Hprefix), Hroot.
  apply for_each_one.
Qed.

(** X10.  Restricted to one of the direct-keyed sources, a search is a single
    existence test on [<root>/<source>/<year>/<ID>.json], where the year is
    the text between the first two dashes of the upper-case identifier; it
    returns that path when the file exists and nothing otherwise, and it
    never raises. *)
Theorem find_cve_file_direct_keyed :
  ∀ fs repo_root cve_id source name,
    Str.startswith "CVE-" (Str.upper cve_id) = true →
    name ∈ ["nvd"; "ubuntu"; "debian"] →
    Str.lower source = name →
    let path := Path.join repo_root
                  [name; year_of (Str.upper cve_id); Str.upper cve_id +:+ ".json"] in
    find_cve_file fs repo_root cve_id (Some source)
    = Io [Exists path] (Val (if fs_exists fs path then Some path else None)).
Proof.
  intros fs repo_root cve_id source name Hprefix Hname Hlower path.
  rewrite (find_cve_file_one_root fs repo_root cve_id source (name, DirectKeyed) Hprefix).
  - unfold probe. cbn [fst snd]. fold path.
    destruct (fs_exists fs path) eqn:Hex.
    + by apply probe_direct_found.
    + by apply probe_direct_missing.
  - rewrite Hlower.
    repeat (apply elem_of_cons in Hname as [->|Hname]; [done|]).
    by apply elem_of_nil in Hname.
Qed.

Lemma find_cve_file_direct_keyed_witness :
  find_cve_file (Tree.file_system nvd_only) "/repo" "cve-2022-1664" (Some "NVD")
  = Io [Exists "/repo/nvd/2022/CVE-2022-1664.json"]
       (Val (Some "/repo/nvd/2022/CVE-2022-1664.json")).
Proof.
  apply (find_cve_file_direct_keyed (Tree.file_system nvd_only) "/repo"
           "cve-2022-1664" "NVD" "nvd").
  - reflexivity.
  - apply list_elem_of_here.
  - reflexivity.
Defined.

Lemma existsb_eq_str xs s : existsb (λ x, eq_str x s) xs = true ↔ JStr s ∈ xs.
Proof.
  rewrite existsb_exists. split.
  - intros (x & Hin & Heq). apply eq_str_true in Heq as ->. by apply list_elem_of_In.
  - intros Hin. exists (JStr s). split; [by apply list_elem_of_In|]. by apply eq_str_true.
Qed.

Lemma secfixes_match_spec cve_id fixes :
  Forall (λ kv : string * json, is_array kv.2 = true) fixes →
  ∃ b, secfixes_match cve_id fixes = Val b
       ∧ (b = true ↔ ∃ version cves, (version, JArr cves) ∈ fixes ∧ JStr cve_id ∈ cves).
Proof.
  induction 1 as [|[version cves] rest Harr _ (b & IH & Hb)].
  - exists false. split; [done|]. split; [done|]. intros (v & c & Hin & _).
    by apply elem_of_nil in Hin.
  - destruct cves as [| | | |cves|]; try done. cbn [secfixes_match py_in mbind outcome_bind].
    destruct (existsb (λ x, eq_str x cve_id) cves) eqn:Hhit.
    + exists true. split; [done|]. split; [|done]. intros _.
      exists version, cves. split; [apply list_elem_of_here|]. by apply existsb_eq_str.
    + exists b. split; [done|]. rewrite Hb. split.
      * intros (v & c & Hin & Hc). exists v, c. split; [by apply list_elem_of_further|done].
      * intros (v & c & Hin & Hc). apply elem_of_cons in Hin as [[= -> ->]|Hin]; [|by eauto].
        apply existsb_eq_str in Hc. congruence.
Qed.

(** X11.  A file of a version-keyed root matches a CVE exactly when its
    [secfixes] object lists the identifier under some version; the test
    raises nothing when every version holds a list.  An object that has no
    [secfixes] key never matches, whatever else it holds. *)
Theorem secfixes_listing :
  (∀ cve_id items fixes,
     dict_get "secfixes" items = Some (JObj fixes) →
     Forall (λ kv : string * json, is_array kv.2 = true) fixes →
     ∃ b, secfixes_matches cve_id (JObj items) = Val b
          ∧ (b = true ↔ ∃ version cves, (version, JArr cves) ∈ fixes ∧ JStr cve_id ∈ cves))
  ∧ (∀ cve_id items,
       dict_get "secfixes" items = None →
       secfixes_matches cve_id (JObj items) = Val false).
Proof.
  split.
  - intros cve_id items fixes Hfix Harr. unfold secfixes_matches. cbn. rewrite Hfix. cbn.
    by apply secfixes_match_spec.
  - intros cve_id items Hnone. unfold secfixes_matches. cbn. by rewrite Hnone.
Qed.

Lemma secfixes_listing_witness :
  ∃ b, secfixes_matches "CVE-2022-1664"
         (JObj [("pkgname", JStr "dpkg");
                ("secfixes", JObj [("1.19.7-r1", JArr [JStr "CVE-2022-1664"])])]) = Val b
       ∧ (b = true
          ↔ ∃ version cves,
              (version, JArr cves) ∈ [("1.19.7-r1", JArr [JStr "CVE-2022-1664"])]
              ∧ JStr "CVE-2022-1664" ∈ cves).
Proof.
  apply (proj1 secfixes_listing "CVE-2022-1664"
           [("pkgname", JStr "dpkg");
            ("secfixes", JObj [("1.19.7-r1", JArr [JStr "CVE-2022-1664"])])]
           [("1.19.7-r1", JArr [JStr "CVE-2022-1664"])]).
  - reflexivity.
  - repeat constructor.
Defined.

(** The advisory block on a root with one ecosystem: four calls, then the
    loop over the files the pattern matches. *)
Lemma probe_ghsa_one_ecosystem fs repo_root cve_id ecosystem_dir :
  let ghsa_base := Path.join repo_root ["ghsa"] in
  let ecosystem_path := Path.join ghsa_base [ecosystem_dir] in
  let pattern := Path.join ecosystem_path ["**/*.json"] in
  let files := for_each (fs_glob fs pattern) (λ json_file,
                 with_json fs json_file (λ data,
                   hit ← lift (advisory_matches cve_id data);
                   if (hit : bool) then mret (Some json_file) else mret None)) in
  fs_exists fs ghsa_base = true →
  fs_listdir fs ghsa_base = Val [ecosystem_dir] →
  fs_isdir fs ecosystem_path = true →
  probe_ghsa fs repo_root cve_id
  = Io ([Exists ghsa_base; ListDir ghsa_base; IsDir ecosystem_path; Glob pattern]
          ++ log files) (result files).
Proof.
  intros ghsa_base ecosystem_path pattern files Hex Hls Hdir.
  unfold probe_ghsa, path_exists, listdir, isdir, glob.
  fold ghsa_base. rewrite Hex, Hls.
  cbn [mbind io_bind mret io_ret tell lift log result for_each app].
  rewrite or_next_none_r. fold ecosystem_path. rewrite Hdir.
  cbn [mbind io_bind mret io_ret tell lift log result app].
  reflexivity.
Qed.

Lemma advisory_file_passed fs cve_id json_file :
  fs_load fs json_file = LoadFails
  ∨ (∃ data, fs_load fs json_file = Loaded data
             ∧ advisory_matches cve_id data = Val false) →
  with_json fs json_file (λ data,
    hit ← lift (advisory_matches cve_id data);
    if (hit : bool) then mret (Some json_file) else mret None)
  = Io (passed_over fs json_file) (Val None).
Proof.
  unfold with_json, passed_over.
  intros [Hload|(data & Hload & Hno)]; rewrite Hload; [done|]. by rewrite Hno.
Qed.

Lemma advisory_file_hit fs cve_id json_file data :
  fs_load fs json_file = Loaded data →
  advisory_matches cve_id data = Val true →
  with_json fs json_file (λ data,
    hit ← lift (advisory_matches cve_id data);
    if (hit : bool) then mret (Some json_file) else mret None)
  = Io [Open json_file] (Val (Some json_file)).
Proof. unfold with_json. intros Hload Hhit. by rewrite Hload, Hhit. Qed.



Lemma advisory_matches_scalar cve_id data :
  is_scalar data = true → advisory_matches cve_id data = Raised TypeError.
Proof. by destruct data. Qed.

Lemma advisory_file_raises fs cve_id json_file e :
  fs_load fs json_file = LoadRaises e
  ∨ (e = TypeError
     ∧ ∃ data, fs_load fs json_file = Loaded data ∧ is_scalar data = true) →
  with_json fs json_file (λ data,
    hit ← lift (advisory_matches cve_id data);
    if (hit : bool) then mret (Some json_file) else mret None)
  = Io [Open json_file] (Raised e).
Proof.
  unfold with_json.
  intros [Hload|(-> & data & Hload & Hscalar)]; rewrite Hload; [done|].
  by rewrite (advisory_matches_scalar _ _ Hscalar).
Qed.

(** X13.  Three conditions end a search of the advisory root with an
    exception that [find_cve_file] does not catch: an advisory root that
    cannot be listed, a file whose content raises something other than the
    two exceptions caught (text that cannot be decoded, for one), and a file
    that holds a JSON number, boolean or [null], on which the membership
    test raises [TypeError]. *)
Theorem find_cve_file_uncaught :
  ∀ fs repo_root cve_id source,
    Str.startswith "CVE-" (Str.upper cve_id) = true →
    Str.lower source = "ghsa" →
    let ghsa_base := Path.join repo_root ["ghsa"] in
    fs_exists fs ghsa_base = true →
    (∀ e, fs_listdir fs ghsa_base = Raised e →
          find_cve_file fs repo_root cve_id (Some source)
          = Io [Exists ghsa_base; ListDir ghsa_base] (Raised e))
    ∧ (∀ ecosystem_dir json_file after,
         let ecosystem_path := Path.join ghsa_base [ecosystem_dir] in
         let pattern := Path.join ecosystem_path ["**/*.json"] in
         fs_listdir fs ghsa_base = Val [ecosystem_dir] →
         fs_isdir fs ecosystem_path = true →
         fs_glob fs pattern = json_file :: after →
         ∀ e, fs_load fs json_file = LoadRaises e
              ∨ (e = TypeError
                 ∧ ∃ data, fs_load fs json_file = Loaded data ∧ is_scalar data = true) →
              find_cve_file fs repo_root cve_id (Some source)
              = Io [Exists ghsa_base; ListDir ghsa_base; IsDir ecosystem_path;
                    Glob pattern; Open json_file] (Raised e)).
Proof.
  intros fs repo_root cve_id source Hprefix Hsource ghsa_base Hex.
  rewrite (find_cve_file_one_root fs repo_root cve_id source ("ghsa", AdvisoryNested) Hprefix)
    by (by rewrite Hsource).
  change (probe fs repo_root (year_of (Str.upper cve_id)) (Str.upper cve_id)
            ("ghsa", AdvisoryNested))
    with (probe_ghsa fs repo_root (Str.upper cve_id)).
  split.
  - intros e Hls. unfold probe_ghsa, path_exists, listdir. fold ghsa_base.
    by rewrite Hex, Hls.
  - intros ecosystem_dir json_file after ecosystem_path pattern Hls Hdir Hglob e Hbad.
    rewrite (probe_ghsa_one_ecosystem fs repo_root (Str.upper cve_id) ecosystem_dir Hex Hls Hdir).
    fold ghsa_base ecosystem_path pattern. rewrite Hglob. cbn [for_each].
    rewrite (advisory_file_raises _ _ _ _ Hbad).
    by rewrite (or_next_raises _ _ e).
Qed.

Lemma find_cve_file_uncaught_witness :
  find_cve_file (Tree.file_system ghsa_with_number) "/repo" "CVE-2021-9999" (Some "ghsa")
  = Io [Exists "/repo/ghsa"; ListDir "/repo/ghsa"; IsDir "/repo/ghsa/pip";
        Glob "/repo/ghsa/pip/**/*.json"; Open "/repo/ghsa/pip/count.json"]
       (Raised TypeError).
Proof.
  apply (proj2 (find_cve_file_uncaught (Tree.file_system ghsa_with_number) "/repo"
                  "CVE-2021-9999" "ghsa" eq_refl eq_refl eq_refl)
           "pip" "/repo/ghsa/pip/count.json" [] eq_refl eq_refl eq_refl TypeError).
  right. split; [reflexivity|]. exists (JNum 3). split; reflexivity.
Defined.

(** X14.  A source whose directory is not there is a source without a match:
    restricted to the advisory root or to a version-keyed root that does not
    exist, a search makes the existence test on the root and returns
    nothing. *)
Theorem find_cve_file_absent_root :
  ∀ fs repo_root cve_id source name,
    Str.startswith "CVE-" (Str.upper cve_id) = true →
    name ∈ "ghsa" :: versioned_sources →
    Str.lower source = name →
    fs_exists fs (Path.join repo_root [name]) = false →
    find_cve_file fs repo_root cve_id (Some source)
    = Io [Exists (Path.join repo_root [name])] (Val None).
Proof.
  intros fs repo_root cve_id source name Hprefix Hname Hsource Habsent.
  apply elem_of_cons in Hname as [->|Hname].
  - rewrite (find_cve_file_one_root fs repo_root cve_id source ("ghsa", AdvisoryNested) Hprefix)
      by (by rewrite Hsource).
    unfold probe, probe_ghsa, path_exists. cbn [fst snd]. by rewrite Habsent.
  - rewrite (find_cve_file_one_root fs repo_root cve_id source (name, VersionKeyed) Hprefix).
    + unfold probe, probe_versioned, path_exists. cbn [fst snd]. by rewrite Habsent.
    + rewrite Hsource. unfold versioned_sources in Hname.
      repeat (apply elem_of_cons in Hname as [->|Hname]; [done|]).
      by apply elem_of_nil in Hname.
Qed.

Lemma find_cve_file_absent_root_witness :
  find_cve_file (Tree.file_system nvd_only) "/repo" "CVE-2022-1664" (Some "Alpine")
  = Io [Exists "/repo/alpine"] (Val None).
Proof.
  apply (find_cve_file_absent_root (Tree.file_system nvd_only) "/repo"
           "CVE-2022-1664" "Alpine" "alpine").
  - reflexivity.
  - apply list_elem_of_further, list_elem_of_here.
  - reflexivity.
  - reflexivity.
Defined.

Lemma for_each_cons {X A} (x : X) (xs : list X) (body : X → io (option A)) :
  for_each (x :: xs) body = (body x ;;; for_each xs body).
Proof. done. Qed.

(** The loop of the last block over the files of one directory. *)
Lemma versioned_files_skipped fs cve_id root files :
  Forall (λ f, Str.endswith ".json" f = false) files →
  for_each files (λ file,
    if Str.endswith ".json" file then
      let json_file := Path.join root [file] in
      with_json fs json_file (λ data,
        hit ← lift (secfixes_matches cve_id data);
        if (hit : bool) then mret (Some json_file) else mret None)
    else mret None)
  = mret None.
Proof.
  induction 1 as [|f files Hf _ IH]; [done|].
  rewrite for_each_cons, IH. cbv beta. rewrite Hf. by rewrite or_next_none_l.
Qed.

Lemma versioned_dirs_skipped fs cve_id (tree : list (string * list string * list string)) :
  Forall (λ d, Forall (λ f, Str.endswith ".json" f = false) d.2) tree →
  for_each tree (λ '(root, dirs, files),
    for_each files (λ file,
      if Str.endswith ".json" file then
        let json_file := Path.join root [file] in
        with_json fs json_file (λ data,
          hit ← lift (secfixes_matches cve_id data);
          if (hit : bool) then mret (Some json_file) else mret None)
      else mret None))
  = mret None.
Proof.
  induction 1 as [|[[root dirs] files] rest Hfiles _ IH]; [done|].
  rewrite for_each_cons, IH. cbn in Hfiles.
  rewrite (versioned_files_skipped _ _ _ _ Hfiles). by rewrite or_next_none_l.
Qed.

Lemma versioned_file_hit fs cve_id json_file data :
  fs_load fs json_file = Loaded data →
  secfixes_matches cve_id data = Val true →
  with_json fs json_file (λ data,
    hit ← lift (secfixes_matches cve_id data);
    if (hit : bool) then mret (Some json_file) else mret None)
  = Io [Open json_file] (Val (Some json_file)).
Proof. unfold with_json. intros Hload Hhit. by rewrite Hload, Hhit. Qed.

Lemma probe_versioned_present fs repo_root cve_id dir_name :
  let source_base := Path.join repo_root [dir_name] in
  let tree := for_each (fs_walk fs source_base) (λ '(root, dirs, files),
                for_each files (λ file,
                  if Str.endswith ".json" file then
                    let json_file := Path.join root [file] in
                    with_json fs json_file (λ data,
                      hit ← lift (secfixes_matches cve_id data);
                      if (hit : bool) then mret (Some json_file) else mret None)
                  else mret None)) in
  fs_exists fs source_base = true →
  probe_versioned fs repo_root cve_id dir_name
  = Io ([Exists source_base; Walk source_base] ++ log tree) (result tree).
Proof.
  intros source_base tree Hex. unfold probe_versioned, path_exists, walk.
  fold source_base. rewrite Hex.
  cbn [mbind io_bind mret io_ret tell lift log result app]. reflexivity.
Qed.

(** X15.  In a version-keyed root only the files whose name ends in [.json]
    are opened.  Where the walk finds no such file the search stops after
    the existence test and the walk, with nothing found; where the first
    such file lists the CVE under [secfixes], its path is returned, and no
    file named before it has been opened. *)
Theorem find_cve_file_version_keyed :
  ∀ fs repo_root cve_id source name,
    Str.startswith "CVE-" (Str.upper cve_id) = true →
    name ∈ versioned_sources →
    Str.lower source = name →
    let source_base := Path.join repo_root [name] in
    fs_exists fs source_base = true →
    (Forall (λ d : string * list string * list string,
               Forall (λ f, Str.endswith ".json" f = false) d.2)
       (fs_walk fs source_base) →
     find_cve_file fs repo_root cve_id (Some source)
     = Io [Exists source_base; Walk source_base] (Val None))
    ∧ (∀ above root dirs skipped file after below data,
         fs_walk fs source_base
         = (above ++ (root, dirs, (skipped ++ file :: after)%list) :: below)%list →
         Forall (λ d : string * list string * list string,
                   Forall (λ f, Str.endswith ".json" f = false) d.2) above →
         Forall (λ f, Str.endswith ".json" f = false) skipped →
         Str.endswith ".json" file = true →
         fs_load fs (Path.join root [file]) = Loaded data →
         secfixes_matches (Str.upper cve_id) data = Val true →
         find_cve_file fs repo_root cve_id (Some source)
         = Io [Exists source_base; Walk source_base; Open (Path.join root [file])]
              (Val (Some (Path.join root [file])))).
Proof.
  intros fs repo_root cve_id source name Hprefix Hname Hsource source_base Hex.
  rewrite (find_cve_file_one_root fs repo_root cve_id source (name, VersionKeyed) Hprefix).
  2:{ rewrite Hsource. unfold versioned_sources in Hname.
      repeat (apply elem_of_cons in Hname as [->|Hname]; [done|]).
      by apply elem_of_nil in Hname. }
  change (probe fs repo_root (year_of (Str.upper cve_id)) (Str.upper cve_id)
            (name, VersionKeyed))
    with (probe_versioned fs repo_root (Str.upper cve_id) name).
  rewrite (probe_versioned_present fs repo_root (Str.upper cve_id) name Hex).
  fold source_base. split.
  - intros Hnone. by rewrite (versioned_dirs_skipped _ _ _ Hnone).
  - intros above root dirs skipped file after below data
      Hwalk Habove Hskipped Hjson Hload Hhit.
    rewrite Hwalk, for_each_app, (versioned_dirs_skipped _ _ _ Habove), or_next_none_l.
    rewrite for_each_cons. cbv beta iota.
    rewrite for_each_app, (versioned_files_skipped _ _ _ _ Hskipped), or_next_none_l.
    rewrite for_each_cons. cbv beta. rewrite Hjson. cbv zeta.
    rewrite (versioned_file_hit _ _ _ _ Hload Hhit).
    by rewrite !(or_next_returns _ _ (Path.join root [file])).
Qed.

Lemma find_cve_file_version_keyed_witness :
  find_cve_file (Tree.file_system alpine_only) "/repo" "CVE-2022-1664" (Some "alpine")
  = Io [Exists "/repo/alpine"; Walk "/repo/alpine";
        Open "/repo/alpine/3.10/main/dpkg.json"]
       (Val (Some "/repo/alpine/3.10/main/dpkg.json")).
Proof.
  apply (proj2 (find_cve_file_version_keyed (Tree.file_system alpine_only) "/repo"
                  "CVE-2022-1664" "alpine" "alpine" eq_refl
                  (list_elem_of_here _ _) eq_refl eq_refl)
           [("/repo/alpine", ["3.10"], []); ("/repo/alpine/3.10", ["main"], [])]
           "/repo/alpine/3.10/main" [] ["README"] "dpkg.json" [] []
           (JObj [("pkgname", JStr "dpkg");
                  ("secfixes", JObj [("1.19.7-r1", JArr [JStr "CVE-2022-1664"])])])).
  - reflexivity.
  - repeat constructor.
  - repeat constructor.
  - reflexivity.
  - reflexivity.
  - reflexivity.
Defined.

(** ** More on the record loader *)

Lemma dict_get_set_eq {V} k (v : V) items : dict_get k (dict_set k v items) = Some v.
Proof.
  unfold dict_get. induction items as [|[k' v'] items IH]; cbn.
  - by rewrite bool_decide_eq_true_2.
  - destruct (decide (k' = k)) as [->|Hne]; cbn.
    + by rewrite bool_decide_eq_true_2.
    + by rewrite bool_decide_eq_false_2.
Qed.

Lemma dict_get_set_ne {V} k k' (v : V) items :
  k' ≠ k → dict_get k' (dict_set k v items) = dict_get k' items.
Proof.
  intros Hne. unfold dict_get. induction items as [|[k0 v0] items IH]; cbn.
  - by rewrite bool_decide_eq_false_2.
  - destruct (decide (k0 = k)) as [->|Hne0]; cbn.
    + by rewrite !bool_decide_eq_false_2.
    + destruct (bool_decide (k0 = k')); [done|]. exact IH.
Qed.

Lemma dict_set_length {V} k (v : V) items :
  List.length (dict_set k v items)
  = match dict_get k items with
    | Some _ => List.length items
    | None => S (List.length items)
    end.
Proof.
  unfold dict_get. induction items as [|[k0 v0] items IH]; cbn; [done|].
  destruct (decide (k0 = k)) as [->|Hne]; cbn.
  - by rewrite bool_decide_eq_true_2.
  - rewrite bool_decide_eq_false_2 by done. rewrite IH.
    by destruct (List.find _ items).
Qed.

(** The loader once the search has given a path. *)
Lemma get_cve_info_found fs repo_root cve_id source file_path :
  result (find_cve_file fs repo_root cve_id source) = Val (Some file_path) →
  file_path ≠ "" →
  get_cve_info fs repo_root cve_id source
  = Io (log (find_cve_file fs repo_root cve_id source) ++ [Open file_path]
        ++ match fs_load fs file_path with
           | LoadFails => [Print ("Error: Could not read or parse " +:+ file_path +:+ ": ")]
           | _ => []
           end)
       match fs_load fs file_path with
       | Loaded data =>
           data' ← py_setitem data "_source" (JStr (source_label file_path));
           mret (Some data')
       | LoadFails => Val None
       | LoadRaises e => Raised e
       end.
Proof.
  intros Hfound Hpath. unfold get_cve_info.
  destruct (find_cve_file fs repo_root cve_id source) as [l r]. cbn in Hfound. subst r.
  run_io. cbn [truthy]. rewrite decide_False by done. run_io.
  destruct (fs_load fs file_path) as [data| |e]; run_io; [|done|done].
  by destruct (py_setitem data "_source" (JStr (source_label file_path))).
Qed.

(** X16.  When the search finds nothing the loader opens no file: it prints
    that no data was found for the identifier as it was typed, with the name
    of the source when one was given, and returns nothing. *)
Theorem get_cve_info_not_found :
  ∀ fs repo_root cve_id source,
    result (find_cve_file fs repo_root cve_id source) = Val None →
    get_cve_info fs repo_root cve_id source
    = Io (log (find_cve_file fs repo_root cve_id source)
          ++ [Print ("Error: Could not find data for " +:+ cve_id
                     +:+ match source with
                         | Some s => if decide (s = "") then "" else " in " +:+ s
                         | None => ""
                         end)])
         (Val None).
Proof.
  intros fs repo_root cve_id source Hnone. unfold get_cve_info.
  destruct (find_cve_file fs repo_root cve_id source) as [l r]. cbn in Hnone. subst r.
  run_io. cbn [truthy]. destruct source as [s|]; [|done].
  unfold truthy. by destruct (decide (s = "")).
Qed.

Lemma get_cve_info_not_found_witness :
  get_cve_info (Tree.file_system nvd_only) "/repo" "cve-2099-0001" (Some "nvd")
  = Io [Exists "/repo/nvd/2099/CVE-2099-0001.json";
        Print "Error: Could not find data for cve-2099-0001 in nvd"] (Val None).
Proof.
  exact (get_cve_info_not_found (Tree.file_system nvd_only) "/repo" "cve-2099-0001"
           (Some "nvd") eq_refl).
Defined.

(** X17.  What the loader does with a file that the search found but that
    does not hold a record: a file that cannot be read or parsed gives
    nothing, with an error line of its own; a document that is not an
    object (a list, a string, a number) raises [TypeError] when the label is
    set; and an exception of the search or of the load that is not caught
    leaves the loader as it is. *)
Theorem get_cve_info_failures :
  (∀ fs repo_root cve_id source file_path,
     result (find_cve_file fs repo_root cve_id source) = Val (Some file_path) →
     file_path ≠ "" →
     (fs_load fs file_path = LoadFails →
      get_cve_info fs repo_root cve_id source
      = Io (log (find_cve_file fs repo_root cve_id source)
            ++ [Open file_path;
                Print ("Error: Could not read or parse " +:+ file_path +:+ ": ")])
           (Val None))
     ∧ (∀ data, fs_load fs file_path = Loaded data → is_object data = false →
                get_cve_info fs repo_root cve_id source
                = Io (log (find_cve_file fs repo_root cve_id source) ++ [Open file_path])
                     (Raised TypeError))
     ∧ (∀ e, fs_load fs file_path = LoadRaises e →
             get_cve_info fs repo_root cve_id source
             = Io (log (find_cve_file fs repo_root cve_id source) ++ [Open file_path])
                  (Raised e)))
  ∧ (∀ fs repo_root cve_id source e,
       result (find_cve_file fs repo_root cve_id source) = Raised e →
       get_cve_info fs repo_root cve_id source
       = Io (log (find_cve_file fs repo_root cve_id source)) (Raised e)).
Proof.
  split.
  - intros fs repo_root cve_id source file_path Hfound Hpath.
    rewrite (get_cve_info_found _ _ _ _ _ Hfound Hpath). split; [|split].
    + by intros ->.
    + intros data -> Hobj. rewrite app_nil_r. by destruct data.
    + intros e ->. by rewrite app_nil_r.
  - intros fs repo_root cve_id source e Hraised. unfold get_cve_info.
    destruct (find_cve_file fs repo_root cve_id source) as [l r]. cbn in Hraised.
    by subst r.
Qed.

Lemma get_cve_info_failures_witness :
  get_cve_info (Tree.file_system ghsa_with_number) "/repo" "CVE-2021-9999" (Some "ghsa")
  = Io [Exists "/repo/ghsa"; ListDir "/repo/ghsa"; IsDir "/repo/ghsa/pip";
        Glob "/repo/ghsa/pip/**/*.json"; Open "/repo/ghsa/pip/count.json"]
       (Raised TypeError).
Proof.
  exact (proj2 get_cve_info_failures (Tree.file_system ghsa_with_number) "/repo"
           "CVE-2021-9999" (Some "ghsa") TypeError eq_refl).
Defined.

(** X18.  The record the loader returns is the document of the file with
    the key [_source] set: the label is found under [_source], whether or
    not the document had that key, every other key has the value it had, and
    the number of items grows by one exactly when the key is new. *)
Theorem get_cve_info_annotates :
  ∀ fs repo_root cve_id source file_path items,
    result (find_cve_file fs repo_root cve_id source) = Val (Some file_path) →
    file_path ≠ "" →
    fs_load fs file_path = Loaded (JObj items) →
    ∃ items',
      get_cve_info fs repo_root cve_id source
      = Io (log (find_cve_file fs repo_root cve_id source) ++ [Open file_path])
           (Val (Some (JObj items')))
      ∧ dict_get "_source" items' = Some (JStr (source_label file_path))
      ∧ (∀ k, k ≠ "_source" → dict_get k items' = dict_get k items)
      ∧ List.length items'
        = match dict_get "_source" items with
          | Some _ => List.length items
          | None => S (List.length items)
          end.
Proof.
  intros fs repo_root cve_id source file_path items Hfound Hpath Hload.
  exists (dict_set "_source" (JStr (source_label file_path)) items).
  rewrite (get_cve_info_found _ _ _ _ _ Hfound Hpath), Hload. rewrite app_nil_r.
  split; [done|]. split; [apply dict_get_set_eq|]. split.
  - intros k Hk. by apply dict_get_set_ne.
  - apply dict_set_length.
Qed.

Lemma get_cve_info_annotates_witness :
  ∃ items',
    get_cve_info (Tree.file_system nvd_only) "/repo" "CVE-2022-1664" None
    = Io (log (find_cve_file (Tree.file_system nvd_only) "/repo" "CVE-2022-1664" None)
          ++ [Open "/repo/nvd/2022/CVE-2022-1664.json"])
         (Val (Some (JObj items')))
    ∧ dict_get "_source" items'
      = Some (JStr (source_label "/repo/nvd/2022/CVE-2022-1664.json"))
    ∧ (∀ k, k ≠ "_source" → dict_get k items' = dict_get k [("id", JStr "CVE-2022-1664")])
    ∧ List.length items'
      = match dict_get "_source" [("id", JStr "CVE-2022-1664")] with
        | Some _ => List.length [("id", JStr "CVE-2022-1664")]
        | None => S (List.length [("id", JStr "CVE-2022-1664")])
        end.
Proof.
  apply (get_cve_info_annotates (Tree.file_system nvd_only) "/repo" "CVE-2022-1664" None
           "/repo/nvd/2022/CVE-2022-1664.json" [("id", JStr "CVE-2022-1664")]).
  - reflexivity.
  - discriminate.
  - reflexivity.
Defined.

(** ** Paths *)

Lemma has_sep_cons c s :
  Path.has_sep (String c s) = bool_decide (c = Path.sep) || Path.has_sep s.
Proof.
  unfold Path.has_sep. cbn [Str.contains Str.startswith].
  rewrite andb_true_r. f_equal. apply bool_decide_ext.
  split; intros H; symmetry; exact H.
Qed.

Lemma has_sep_app a s : Path.has_sep (a +:+ "/" +:+ s) = true.
Proof.
  induction a as [|c a IH].
  - change ("" +:+ "/" +:+ s) with (String Path.sep s).
    by rewrite has_sep_cons, bool_decide_eq_true_2.
  - change (String c a +:+ "/" +:+ s) with (String c (a +:+ "/" +:+ s)).
    by rewrite has_sep_cons, IH, orb_true_r.
Qed.

Lemma head_child a s :
  slash_free s = true → Path.head (a +:+ "/" +:+ s) = a +:+ "/".
Proof.
  unfold slash_free. intros Hs. apply negb_true_iff in Hs.
  induction a as [|c a IH].
  - change ("" +:+ "/" +:+ s) with (String Path.sep s). cbn [Path.head].
    rewrite Hs. by rewrite decide_True.
  - change (String c a +:+ "/" +:+ s) with (String c (a +:+ "/" +:+ s)).
    cbn [Path.head]. rewrite has_sep_app, IH. done.
Qed.

Lemma basename_child a s :
  slash_free s = true → Path.basename (a +:+ "/" +:+ s) = s.
Proof.
  unfold slash_free. intros Hs. apply negb_true_iff in Hs.
  induction a as [|c a IH].
  - change ("" +:+ "/" +:+ s) with (String Path.sep s). cbn [Path.basename].
    rewrite Hs. by rewrite decide_True.
  - change (String c a +:+ "/" +:+ s) with (String c (a +:+ "/" +:+ s)).
    cbn [Path.basename]. by rewrite has_sep_app.
Qed.

Lemma rstrip_slash a : Path.rstrip (a +:+ "/") = Path.rstrip a.
Proof.
  induction a as [|c a IH]; [done|].
  change (String c a +:+ "/") with (String c (a +:+ "/")).
  cbn [Path.rstrip]. by rewrite IH.
Qed.

Lemma rstrip_name s : slash_free s = true → Path.rstrip s = s.
Proof.
  unfold slash_free. induction s as [|c s IH]; [done|].
  rewrite has_sep_cons, negb_orb. intros H. apply andb_true_iff in H as [Hc Hs].
  cbn [Path.rstrip]. rewrite (IH Hs). apply negb_true_iff in Hc. rewrite Hc.
  by rewrite andb_false_r.
Qed.

Lemma rstrip_keeps a s :
  s ≠ "" → slash_free s = true → Path.rstrip (a +:+ s) = a +:+ s.
Proof.
  intros Hne Hs. induction a as [|c a IH]; [by apply rstrip_name|].
  change (String c a +:+ s) with (String c (a +:+ s)).
  cbn [Path.rstrip]. rewrite IH.
  rewrite bool_decide_eq_false_2; [done|]. by destruct a, s.
Qed.

Lemma not_all_slashes s :
  s ≠ "" → slash_free s = true → Str.all (λ c, bool_decide (c = Path.sep)) s = false.
Proof.
  unfold slash_free. destruct s as [|c s]; [done|]. intros _.
  rewrite has_sep_cons, negb_orb. intros H. apply andb_true_iff in H as [Hc _].
  apply negb_true_iff in Hc. unfold Str.all. cbn. by rewrite Hc.
Qed.

(** The directory of [<x><name>/<child>] is [<x><name>]. *)
Lemma dirname_child x name child :
  name ≠ "" → slash_free name = true → slash_free child = true →
  Path.dirname (x +:+ name +:+ "/" +:+ child) = x +:+ name.
Proof.
  intros Hne Hname Hchild. unfold Path.dirname.
  rewrite <- (append_assoc x name ("/" +:+ child)).
  rewrite (head_child _ _ Hchild).
  assert (Str.all (λ c, bool_decide (c = Path.sep)) ((x +:+ name) +:+ "/") = false) as ->.
  { rewrite !all_app, (not_all_slashes _ Hne Hname). by rewrite andb_false_r. }
  rewrite bool_decide_eq_false_2 by (by destruct (x +:+ name)).
  cbn [negb andb]. by rewrite rstrip_slash, rstrip_keeps.
Qed.

(** X19.  A path that names [alpine], and neither [nvd] nor [ghsa], is
    labelled with the two directories the file lies in: for
    [<base>/<release>/<repository>/<file>] the label is
    [Alpine Linux (<release>/<repository>)]. *)
Theorem source_label_alpine :
  ∀ base release repository file,
    release ≠ "" → repository ≠ "" →
    slash_free release = true → slash_free repository = true → slash_free file = true →
    let file_path := base +:+ "/" +:+ release +:+ "/" +:+ repository +:+ "/" +:+ file in
    Str.contains "nvd" file_path = false →
    Str.contains "ghsa" file_path = false →
    Str.contains "alpine" file_path = true →
    source_label file_path = "Alpine Linux (" +:+ release +:+ "/" +:+ repository +:+ ")".
Proof.
  intros base release repository file Hr Hp Hsr Hsp Hsf file_path Hnvd Hghsa Halpine.
  unfold source_label. rewrite Hnvd, Hghsa, Halpine.
  assert (Path.dirname file_path = (base +:+ "/" +:+ release +:+ "/") +:+ repository) as Hd1.
  { unfold file_path.
    rewrite <- (dirname_child (base +:+ "/" +:+ release +:+ "/") repository file Hp Hsp Hsf).
    by rewrite !append_assoc. }
  rewrite Hd1.
  assert ((base +:+ "/" +:+ release +:+ "/") +:+ repository
          = (base +:+ "/") +:+ release +:+ "/" +:+ repository) as Hassoc
    by (by rewrite !append_assoc).
  rewrite Hassoc, (dirname_child (base +:+ "/") release repository Hr Hsr Hsp).
  rewrite <- Hassoc.
  assert ((base +:+ "/" +:+ release +:+ "/") +:+ repository
          = (base +:+ "/" +:+ release) +:+ "/" +:+ repository) as ->
    by (by rewrite !append_assoc).
  rewrite (basename_child _ _ Hsp).
  rewrite append_assoc, (basename_child _ _ Hsr). done.
Qed.

Lemma source_label_alpine_witness :
  source_label "/repo/alpine/3.10/main/dpkg.json" = "Alpine Linux (3.10/main)".
Proof.
  exact (source_label_alpine "/repo/alpine" "3.10" "main" "dpkg.json"
           ltac:(discriminate) ltac:(discriminate) eq_refl eq_refl eq_refl
           eq_refl eq_refl eq_refl).
Defined.

(** ** The command *)

Lemma dict_set_nonempty {V} k (v : V) items : dict_set k v items ≠ [].
Proof. destruct items as [|[k' v'] items]; cbn; [done|]. by destruct (decide (k' = k)). Qed.

(** What the loader returns, when it returns something, is an object that
    is not empty, so it counts as true. *)
Lemma get_cve_info_truthy fs repo_root cve_id source data :
  result (get_cve_info fs repo_root cve_id source) = Val (Some data) →
  truthy_json (Some data) = true.
Proof.
  unfold get_cve_info.
  destruct (find_cve_file fs repo_root cve_id source) as [l [file_path|e]]; [|done].
  run_io. destruct (truthy file_path) as [path|]; [|done]. run_io.
  destruct (fs_load fs path) as [doc| |e]; [|done|done].
  destruct doc as [| | | | |items]; try done.
  cbn. intros [= <-]. cbn. apply negb_true_iff, bool_decide_eq_false_2, dict_set_nonempty.
Qed.

Lemma io_ret_bind {A B} (x : A) (f : A → io B) : mret x ≫= f = f x.
Proof. unfold mret, io_ret, mbind, io_bind. cbn. by destruct (f x). Qed.

Lemma io_lift_bind {A B} (x : A) (f : A → io B) : lift (Val x) ≫= f = f x.
Proof. apply io_ret_bind. Qed.

(** X20.  The word [--help] anywhere on the command line, and a command line
    with no argument, make the command print the five parts of the help and
    stop: no search is made.  The status is 0 in the first case and 1 in the
    second. *)
Theorem main_help :
  ∀ fs repo_root dumps_json argv,
    "--help" ∈ argv ∨ (List.length argv < 2)%nat →
    main fs repo_root dumps_json argv
    = Io [Print help_usage; Print help_arguments; Print help_options;
          Print help_sources; Print help_examples]
         (Val (if bool_decide ("--help" ∈ argv) then 0 else 1)%nat).
Proof.
  intros fs repo_root dumps_json argv Hhelp. unfold main.
  assert ((List.length argv <? 2)%nat || bool_decide ("--help" ∈ argv) = true) as ->.
  { apply orb_true_iff. destruct Hhelp as [H|H].
    - right. by apply bool_decide_eq_true.
    - left. by apply Nat.ltb_lt. }
  reflexivity.
Qed.

Lemma main_help_witness :
  main (Tree.file_system nvd_only) "/repo" (λ _, "{}")
    ["get-cve.py"; "CVE-2022-1664"; "--source"; "nvd"; "--help"]
  = Io [Print help_usage; Print help_arguments; Print help_options;
        Print help_sources; Print help_examples] (Val 0%nat).
Proof.
  apply (main_help (Tree.file_system nvd_only) "/repo" (λ _, "{}")
           ["get-cve.py"; "CVE-2022-1664"; "--source"; "nvd"; "--help"]).
  left. repeat first [apply list_elem_of_here | apply list_elem_of_further].
Defined.

(** X21.  Without [--help], the command looks up its first argument, in the
    source named after [--source] when that word is the second argument and
    a name follows it, and in every source otherwise (a [--source] with no
    name after it, or placed elsewhere, is not an error).  It exits with 0
    exactly when the loader returns a record, which it then prints last, and
    with 1 when the loader returns nothing. *)
Theorem main_status :
  ∀ fs repo_root dumps_json prog cve_id rest,
    "--help" ∉ prog :: cve_id :: rest →
    let found := get_cve_info fs repo_root cve_id (source_option rest) in
    main fs repo_root dumps_json (prog :: cve_id :: rest)
    = match result found with
      | Val (Some data) => Io (log found ++ [Print (dumps_json data)]) (Val 0%nat)
      | Val None => Io (log found) (Val 1%nat)
      | Raised e => Io (log found) (Raised e)
      end.
Proof.
  intros fs repo_root dumps_json prog cve_id rest Hhelp found. unfold main.
  rewrite (bool_decide_eq_false_2 _ Hhelp).
  assert (∀ source,
            (cve_data ← get_cve_info fs repo_root cve_id source;
             if truthy_json cve_data then print_cve_info dumps_json cve_data;; mret 0%nat
             else mret 1%nat)
            = match result (get_cve_info fs repo_root cve_id source) with
              | Val (Some data) =>
                  Io (log (get_cve_info fs repo_root cve_id source)
                      ++ [Print (dumps_json data)]) (Val 0%nat)
              | Val None => Io (log (get_cve_info fs repo_root cve_id source)) (Val 1%nat)
              | Raised e => Io (log (get_cve_info fs repo_root cve_id source)) (Raised e)
              end) as Hrun.
  { intros source.
    pose proof (get_cve_info_truthy fs repo_root cve_id source) as Htruthy.
    destruct (get_cve_info fs repo_root cve_id source) as [l [[data|]|e]];
      cbn [result log] in *; [|by run_io; rewrite app_nil_r|done].
    specialize (Htruthy data eq_refl). run_io. rewrite Htruthy.
    unfold print_cve_info. rewrite Htruthy. by run_io. }
  subst found.
  destruct rest as [|flag [|value rest]];
    cbn [List.length Nat.ltb Nat.leb orb getitem lookup list_lookup source_option];
    rewrite !io_lift_bind.
  - rewrite !io_ret_bind. apply Hrun.
  - rewrite andb_false_r, !io_ret_bind. apply Hrun.
  - rewrite andb_true_r.
    destruct (decide (flag = "--source")) as [->|Hne].
    + rewrite bool_decide_eq_true_2 by done. rewrite !io_ret_bind. apply Hrun.
    + rewrite bool_decide_eq_false_2 by done. rewrite !io_ret_bind. apply Hrun.
Qed.

Lemma main_status_witness :
  main (Tree.file_system nvd_only) "/repo" (λ _, "{}")
    ["get-cve.py"; "CVE-2099-0001"; "--source"]
  = Io [Exists "/repo/nvd/2099/CVE-2099-0001.json";
        Exists "/repo/ubuntu/2099/CVE-2099-0001.json";
        Exists "/repo/debian/2099/CVE-2099-0001.json";
        Exists "/repo/ghsa"; Exists "/repo/alpine"; Exists "/repo/amazon";
        Exists "/repo/oracle"; Exists "/repo/photon"; Exists "/repo/redhat";
        Exists "/repo/suse";
        Print "Error: Could not find data for CVE-2099-0001"] (Val 1%nat).
Proof.
  apply (main_status (Tree.file_system nvd_only) "/repo" (λ _, "{}")
           "get-cve.py" "CVE-2099-0001" ["--source"]).
  intros H. repeat (apply elem_of_cons in H as [H|H]; [discriminate H|]).
  by apply elem_of_nil in H.
Defined.

(** ** Fetching the feed *)

Section FeedFacts.

Variable sha256 : string → string.

Lemma check_for_changes_runs files new :
  files !! Update.NEW_CSV_PATH = Some new →
  Update.check_for_changes sha256 files
  = Val (if feed_changed sha256 files new
         then <[Update.UPDATED_CSV_PATH := new]> (delete Update.NEW_CSV_PATH files)
         else delete Update.NEW_CSV_PATH files,
         feed_changed sha256 files new).
Proof.
  intros Hnew. unfold Update.check_for_changes, feed_changed, Update.rename,
    Update.remove, Update.read.
  destruct (files !! Update.LOCAL_CSV_PATH) as [old|] eqn:Hlocal; cbn.
  - rewrite Hnew. cbn. by destruct (bool_decide (sha256 old = sha256 new)).
  - by rewrite Hnew.
Qed.

End FeedFacts.



(** X23.  What [check_for_changes] does to the directory: the local feed is
    never touched, the download is gone afterwards, the updated feed is the
    download when a change is reported and is left as it was otherwise, and
    no other file is touched. *)
Theorem check_for_changes_effect :
  ∀ sha256 files files' changed new,
    files !! Update.NEW_CSV_PATH = Some new →
    Update.check_for_changes sha256 files = Val (files', changed) →
    files' !! Update.LOCAL_CSV_PATH = files !! Update.LOCAL_CSV_PATH
    ∧ files' !! Update.NEW_CSV_PATH = None
    ∧ files' !! Update.UPDATED_CSV_PATH
      = (if changed then Some new else files !! Update.UPDATED_CSV_PATH)
    ∧ (∀ path, path ≠ Update.NEW_CSV_PATH → path ≠ Update.UPDATED_CSV_PATH →
               files' !! path = files !! path).
Proof.
  intros sha256 files files' changed new Hnew.
  rewrite (check_for_changes_runs sha256 files new Hnew). intros [= <- <-].
  destruct (feed_changed sha256 files new).
  - split; [|split; [|split]].
    + rewrite lookup_insert_ne by done. by rewrite lookup_delete_ne.
    + rewrite lookup_insert_ne by done. apply lookup_delete_eq.
    + apply lookup_insert_eq.
    + intros path H1 H2. rewrite lookup_insert_ne by done. by rewrite lookup_delete_ne.
  - split; [|split; [|split]].
    + by rewrite lookup_delete_ne.
    + apply lookup_delete_eq.
    + by rewrite lookup_delete_ne.
    + intros path H1 H2. by rewrite lookup_delete_ne.
Qed.

Lemma check_for_changes_effect_witness :
  let files : gmap string string :=
    {[ "tuxcare.csv" := "old"; "tuxcare.csv.new" := "new" ]} in
  let files' : gmap string string :=
    <[ "tuxcare_updated.csv" := "new" ]> (delete "tuxcare.csv.new" files) in
  files' !! Update.LOCAL_CSV_PATH = files !! Update.LOCAL_CSV_PATH
  ∧ files' !! Update.NEW_CSV_PATH = None
  ∧ files' !! Update.UPDATED_CSV_PATH = Some "new"
  ∧ (∀ path, path ≠ Update.NEW_CSV_PATH → path ≠ Update.UPDATED_CSV_PATH →
             files' !! path = files !! path).
Proof.
  intros files files'.
  apply (check_for_changes_effect (λ bytes, bytes) files files' true "new").
  - reflexivity.
  - reflexivity.
Defined.

Lemma update_main_runs sha256 content files :
  ∃ files',
    Update.main sha256 (Some content) files
    = Val (files', 0%nat, feed_changed sha256 files content)
    ∧ files' !! Update.LOCAL_CSV_PATH = files !! Update.LOCAL_CSV_PATH
    ∧ files' !! Update.NEW_CSV_PATH = None
    ∧ (feed_changed sha256 files content = true →
       files' !! Update.UPDATED_CSV_PATH = Some content).
Proof.
  unfold Update.main, Update.download_csv. cbn [negb].
  set (files1 := <[Update.NEW_CSV_PATH := content]> files).
  assert (files1 !! Update.NEW_CSV_PATH = Some content) as Hnew
    by apply lookup_insert_eq.
  assert (feed_changed sha256 files1 content = feed_changed sha256 files content) as Hsame.
  { unfold feed_changed, files1. by rewrite lookup_insert_ne. }
  pose proof (check_for_changes_runs sha256 files1 content Hnew) as Hrun.
  rewrite Hsame in Hrun. rewrite Hrun. cbn.
  eexists. split; [done|].
  destruct (feed_changed sha256 files content); unfold files1.
  - split; [|split].
    + rewrite lookup_insert_ne by done. rewrite lookup_delete_ne by done.
      by rewrite lookup_insert_ne.
    + rewrite lookup_insert_ne by done. apply lookup_delete_eq.
    + intros _. apply lookup_insert_eq.
  - split; [|split; [|done]].
    + rewrite lookup_delete_ne by done. by rewrite lookup_insert_ne.
    + apply lookup_delete_eq.
Qed.


(** X25.  The updater never installs what it fetched as the local feed, so
    it does not settle: run again with the same reply on the directory it
    left, it makes the same report. *)
Theorem update_main_repeats :
  ∀ sha256 content files files' status changed,
    Update.main sha256 (Some content) files = Val (files', status, changed) →
    ∃ files'', Update.main sha256 (Some content) files' = Val (files'', status, changed).
Proof.
  intros sha256 content files files' status changed Hfirst.
  destruct (update_main_runs sha256 content files)
    as (files1 & Hrun & Hlocal & _).
  rewrite Hrun in Hfirst. injection Hfirst as <- <- <-.
  destruct (update_main_runs sha256 content files1)
    as (files2 & Hrun2 & _).
  exists files2. rewrite Hrun2. do 2 f_equal.
  unfold feed_changed. by rewrite Hlocal.
Qed.

Lemma update_main_repeats_witness :
  ∃ files'',
    Update.main (λ bytes, bytes) (Some "new")
      (<[ "tuxcare_updated.csv" := "new" ]>
         (delete "tuxcare.csv.new"
            (<[ "tuxcare.csv.new" := "new" ]> ({[ "tuxcare.csv" := "old" ]}))))
    = Val (files'', 0%nat, true).
Proof.
  apply (update_main_repeats (λ bytes, bytes) "new" ({[ "tuxcare.csv" := "old" ]})).
  reflexivity.
Defined.
